(** * Virtual Weather IoT Dashboard: a shallow embedding and its properties

    The development follows the two Python modules of the dashboard:
    [weather_service.py] (the caching client of the weather provider) and
    [app.py] (topic sanitiser, numeric classifier, the polling loop of the
    GUI and its bounded chart history, the reading of the city names, the
    ticks of the chart, the headless simulator and the entry point).

    Conventions of the embedding:
    - a Python [str] is the list of its Unicode code points ([list N]);
    - a Python [float] is a binary64 primitive float, an [int] is a [Z],
      and a number of the provider's JSON is one or the other ([num]);
    - a dict used as a map is a [gmap];
    - code that raises or mutates is written in a state-and-exception monad
      over the state of the process and of the outside world (clock, network,
      random generator);
    - what the interpreter provides and the repository does not define (the
      Unicode case tables above Latin-1, [round], the text of a float) is the
      interface [Builtins];
    - of the libraries, what the program depends on is modelled: the answers
      of [requests], and the [ValueError] of matplotlib's [set_ylim] for a
      limit that is not finite. Printing, Tk and the other drawing calls are
      taken to return. *)

From Stdlib Require Import PrimFloat FloatOps SpecFloat ZArith NArith List Bool Lia.
From Stdlib Require Import String Ascii DecimalString.
From Equations Require Import Equations.
From stdpp Require Import gmap list.

#[local] Set Warnings "-inexact-float,-register-all".
#[local] Open Scope N_scope.

(** ** Python strings *)

Abbreviation str := (list N).

(** An ASCII literal of the source, as code points. *)
Definition lit (s : string) : str :=
  map N_of_ascii (list_ascii_of_string s).

(** What the Python runtime supplies. *)
Class Builtins := {
  (** [str.lower] on a code point above Latin-1, given the text before and
      after it (the Unicode tables; the context decides the final sigma). *)
  lower_wide : str -> N -> str -> str;
  (** [round(x, 1)] on a float. *)
  round1 : float -> float;
  (** [str(x)] of a float, as an f-string interpolates it. *)
  float_text : float -> str;
  (** whether the exception of [response.json()] on an undecodable body
      derives from [requests.RequestException] (it does from requests 2.27). *)
  json_error_is_request_exception : bool
}.

Module PyStr.

Definition between (lo hi c : N) : bool := (lo <=? c) && (c <=? hi).

(** [str.isspace] of one code point, which is also the regex class [\s]. *)
Definition isspace (c : N) : bool :=
  between 9 13 c || between 28 32 c || (c =? 133) || (c =? 160)
  || (c =? 5760) || between 8192 8202 c || (c =? 8232) || (c =? 8233)
  || (c =? 8239) || (c =? 8287) || (c =? 12288).

(** Lower-casing of a code point of ASCII or Latin-1: A-Z, and the
    capital letters U+00C0-U+00DE without the multiplication sign. *)
Definition lower_latin1 (c : N) : N :=
  if between 65 90 c then c + 32
  else if between 192 222 c && negb (c =? 215) then c + 32
  else c.

Section Lower.
Context `{Builtins}.

Fixpoint lower_from (before s : str) : str :=
  match s with
  | [] => []
  | c :: rest =>
      (if c <? 256 then [lower_latin1 c] else lower_wide before c rest)
      ++ lower_from (before ++ [c]) rest
  end.

(** [s.lower()] *)
Definition lower (s : str) : str := lower_from [] s.
End Lower.

Fixpoint drop_while (p : N -> bool) (s : str) : str :=
  match s with
  | [] => []
  | c :: rest => if p c then drop_while p rest else s
  end.

Fixpoint prefix_of (p s : str) : bool :=
  match p, s with
  | [], _ => true
  | _ :: _, [] => false
  | a :: p', b :: s' => (a =? b) && prefix_of p' s'
  end.

(** [needle in hay] *)
Fixpoint contains (needle hay : str) : bool :=
  prefix_of needle hay ||
  match hay with
  | [] => false
  | _ :: rest => contains needle rest
  end.

(** [s.lstrip(chars)], [s.rstrip(chars)] and [s.strip(chars)], the set
    of characters given as a predicate. *)
Definition lstrip (p : N -> bool) (s : str) : str := drop_while p s.
Definition rstrip (p : N -> bool) (s : str) : str :=
  reverse (drop_while p (reverse s)).
Definition strip (p : N -> bool) (s : str) : str := rstrip p (lstrip p s).

(** [re.sub(r'[cls]+', repl, s)]: the scan goes left to right; where the
    class matches, the greedy [+] takes the whole run that starts there,
    one [repl] is written for it and the scan goes on behind the run. *)
Equations? re_sub_plus (cls : N -> bool) (repl : str) (s : str) : str
  by wf (length s) lt :=
  re_sub_plus cls repl [] := [];
  re_sub_plus cls repl (c :: rest) :=
    if cls c then repl ++ re_sub_plus cls repl (drop_while cls rest)
    else c :: re_sub_plus cls repl rest.
Proof.
  - clear re_sub_plus. simpl. induction rest as [|d rest IH]; simpl; [lia|].
    destruct (cls d); simpl in *; lia.
  - simpl. lia.
Qed.

(** [re.sub(r'[cls]', repl, s)]: every single match is replaced. *)
Fixpoint re_sub_char (cls : N -> bool) (repl : str) (s : str) : str :=
  match s with
  | [] => []
  | c :: rest =>
      (if cls c then repl else [c]) ++ re_sub_char cls repl rest
  end.

End PyStr.

(** ** Python numbers *)

(** A number as the program meets it: an [int] or a [float]. *)
Inductive num :=
| PyInt (z : Z)
| PyFloat (x : float).

(** [float(z)]: the nearest float, ties to even; [None] stands for the
    [OverflowError] of an [int] too large to convert. *)
Definition float_of_int (z : Z) : option float :=
  let x := SF2Prim (binary_normalize prec emax z 0 false) in
  if is_infinity x then None else Some x.

(** The float that [+] and [*] with a float take the number for. *)
Definition as_float (n : num) : option float :=
  match n with
  | PyInt z => float_of_int z
  | PyFloat x => Some x
  end.

(** [str(z)] *)
Definition int_text (z : Z) : str :=
  lit (NilZero.string_of_int (Z.to_int z)).

(** [str(n)], as an f-string interpolates it. *)
Definition num_text `{Builtins} (n : num) : str :=
  match n with
  | PyInt z => int_text z
  | PyFloat x => float_text x
  end.

(** ** [app.py]: the topic sanitiser *)

Module Topic.
Import PyStr.

(** the class [[\s\-.,!?]] *)
Definition is_sep (c : N) : bool :=
  isspace c || (c =? 45) || (c =? 46) || (c =? 44) || (c =? 33) || (c =? 63).

(** the class [[a-z0-9_]], whose complement the second pattern deletes *)
Definition is_topic_char (c : N) : bool :=
  between 97 122 c || between 48 57 c || (c =? 95).

Definition is_underscore (c : N) : bool := c =? 95.

Definition sanitize_topic `{Builtins} (name : str) : str :=
  let safe := re_sub_plus is_sep (lit "_") (lower name) in
  let safe := re_sub_char (fun c => negb (is_topic_char c)) [] safe in
  strip is_underscore safe.

(** *** The algorithm in the words of the specification *)

(** The text cut into its maximal runs: a run is a non-empty block of
    neighbouring characters that are all separators or all not. *)
Fixpoint runs (s : str) : list (bool * str) :=
  match s with
  | [] => []
  | c :: rest =>
      match runs rest with
      | (b, run) :: more =>
          if Bool.eqb b (is_sep c) then (b, c :: run) :: more
          else (is_sep c, [c]) :: (b, run) :: more
      | [] => [(is_sep c, [c])]
      end
  end.

(** No two neighbouring runs are of the same kind. *)
Fixpoint alternating (l : list (bool * str)) : Prop :=
  match l with
  | r1 :: (r2 :: _) as tl => fst r1 <> fst r2 /\ alternating tl
  | _ => True
  end.

(** Every maximal run of separators becomes one underscore. *)
Definition collapse_runs (s : str) : str :=
  concat (map (fun r : bool * str => if fst r then lit "_" else snd r)
              (runs s)).

(** Every character that is not a lowercase ASCII letter, a digit or an
    underscore is deleted. *)
Definition delete_invalid (s : str) : str := List.filter is_topic_char s.

End Topic.

(** ** Weather conditions *)

(** The closed set of condition categories of the specification. *)
Inductive Condition :=
| Clear | PartlyCloudy | Rain | Snow | Fog | Thunderstorm | Overcast | Unknown.

(** ** [app.py]: the classifier of simulated readings *)

Module Numeric.

Inductive icon_key := sunny | partly_cloudy | rainy.

(** The dict [WEATHER_ICONS]: U+2600, U+1F324 and U+1F327, each followed by
    the variation selector U+FE0F. *)
Definition WEATHER_ICONS (key : icon_key) : str :=
  match key with
  | sunny => [9728; 65039]
  | partly_cloudy => [127780; 65039]
  | rainy => [127783; 65039]
  end.

Definition get_weather_condition (temp humidity : float) : str :=
  if (30 <? temp)%float && (humidity <? 50)%float then WEATHER_ICONS sunny
  else if (80 <? humidity)%float then WEATHER_ICONS rainy
  else WEATHER_ICONS partly_cloudy.

(** The category each icon stands for. *)
Definition icon_condition (key : icon_key) : Condition :=
  match key with
  | sunny => Clear
  | partly_cloudy => PartlyCloudy
  | rainy => Rain
  end.

End Numeric.

(** ** [weather_service.py]: the classifier of the provider's text *)

Module TextPath.
Import PyStr.

(** The string [get_weather] stores for each category, code point by code
    point as the literals stand in [weather_service.py]. *)
Definition glyph (c : Condition) : str :=
  match c with
  | Thunderstorm => [226; 8250; 710; 239; 184]
  | Rain => [240; 376; 338; 167; 239; 184]
  | Snow => [240; 376; 338; 168; 239; 184]
  | Fog => [240; 376; 338; 171; 239; 184]
  | Clear => [226; 732; 8364; 239; 184]
  | PartlyCloudy => [240; 376; 338; 164; 239; 184]
  | Overcast => [226; 732; 239; 184]
  | Unknown => [226; 8220]
  end.

(** Lines 101-118 of [get_weather], on the lower-cased text [conditions]. *)
Definition condition_of (conditions : str) : str :=
  if contains (lit "thunder") conditions then glyph Thunderstorm
  else if contains (lit "rain") conditions || contains (lit "drizzle") conditions
          || contains (lit "shower") conditions then glyph Rain
  else if contains (lit "snow") conditions || contains (lit "ice") conditions
          || contains (lit "sleet") conditions then glyph Snow
  else if contains (lit "fog") conditions || contains (lit "mist") conditions
          || contains (lit "haze") conditions then glyph Fog
  else if contains (lit "clear") conditions
          && negb (contains (lit "cloud") conditions) then glyph Clear
  else if contains (lit "partly cloudy") conditions
          || contains (lit "scattered clouds") conditions then glyph PartlyCloudy
  else if contains (lit "cloud") conditions
          || contains (lit "overcast") conditions then glyph Overcast
  else glyph Unknown.

(** *** The classifier in the words of the specification *)

Definition has_any (keywords : list string) (text : str) : bool :=
  existsb (fun k => contains (lit k) text) keywords.

(** The categories in their order of priority, each with its test. *)
Definition priority : list (Condition * (str -> bool)) :=
  [ (Thunderstorm, has_any ["thunder"%string]);
    (Rain, has_any ["rain"; "drizzle"; "shower"]%string);
    (Snow, has_any ["snow"; "ice"; "sleet"]%string);
    (Fog, has_any ["fog"; "mist"; "haze"]%string);
    (Clear, fun t => has_any ["clear"%string] t && negb (has_any ["cloud"%string] t));
    (PartlyCloudy, has_any ["partly cloudy"; "scattered clouds"]%string);
    (Overcast, has_any ["cloud"; "overcast"]%string) ].

(** First match wins; no match is [Unknown]. *)
Fixpoint first_match (rules : list (Condition * (str -> bool))) (text : str)
  : Condition :=
  match rules with
  | [] => Unknown
  | (category, test) :: rest =>
      if test text then category else first_match rest text
  end.

Definition classify_text `{Builtins} (description : str) : Condition :=
  first_match priority (lower description).

End TextPath.

(** ** The process and the world around it *)

(** The exceptions the two modules meet. All derive from [Exception];
    [HTTPError] and [ConnectionError] derive from
    [requests.RequestException]. *)
Inductive exn :=
| HTTPError (status_code : Z)  (** raised by [response.raise_for_status()] *)
| ConnectionError              (** [requests.get] itself fails *)
| JSONDecodeError              (** [response.json()] on a body that is no JSON *)
| KeyError (key : str)
| TypeError
| AttributeError
| OverflowError                (** an [int] too large to convert to float *)
| ValueError.                  (** [set_ylim] with a limit that is not finite *)

Definition is_RequestException `{Builtins} (e : exn) : bool :=
  match e with
  | HTTPError _ | ConnectionError => true
  | JSONDecodeError => json_error_is_request_exception
  | KeyError _ | TypeError | AttributeError | OverflowError | ValueError =>
      false
  end.

(** A decoded JSON body, as [json.loads] gives it: [None], [True] and
    [False], an [int] for a number written without fraction and exponent, a
    float for any other number ([NaN] and [Infinity] included), strings,
    lists and dicts; a dict is the list of its items, the keys being
    distinct. *)
Inductive json :=
| JNull
| JBool (b : bool)
| JInt (z : Z)
| JNumber (x : float)
| JString (s : str)
| JArray (items : list json)
| JObject (fields : list (str * json)).

(** What the provider does with one request. *)
Inductive http_outcome :=
| Unreachable
| Response (status_code : Z) (body : option json).

(** The dict [get_weather] returns and caches. The cache and the callers
    hold copies ([data.copy()]), so a reading is a value. *)
Record Reading := mkReading {
  temperature : num;
  humidity : num;
  wind : num;
  condition : str
}.

(** The four [StringVar]s of a row of the table. *)
Record Row := mkRow {
  row_temp : str;
  row_humidity : str;
  row_wind : str;
  row_condition : str
}.

(** What [update_loop] hands to [mqtt.publish]. *)
Record Payload := mkPayload {
  p_timestamp : float;
  p_city : str;
  p_temperature : num;
  p_humidity : num;
  p_wind : num;
  p_condition : str
}.

Record State := mkState {
  (** the world: the n-th reading of the clock, the answer to the n-th
      request, the n-th draw of [random.uniform(-0.2, 0.2)] *)
  clock : nat -> float;
  clock_reads : nat;
  server : nat -> str -> http_outcome;
  requests : list str;
  uniform : nat -> float;
  draws : nat;
  (** [WeatherService] *)
  _cache : gmap str (float * Reading);
  (** [WeatherApp] *)
  cities : list str;
  graphed_city : str;
  city_data : gmap str Row;
  temp_history : list float;
  time_history : list float;
  (** the MQTT client, if any, with its [_connected] flag, and the
      messages handed to it *)
  mqtt : option bool;
  published : list (str * Payload)
}.

Definition set_clock_reads (n : nat) (s : State) : State :=
  mkState (clock s) n (server s) (requests s) (uniform s) (draws s)
    (_cache s) (cities s) (graphed_city s) (city_data s) (temp_history s)
    (time_history s) (mqtt s) (published s).

Definition set_requests (l : list str) (s : State) : State :=
  mkState (clock s) (clock_reads s) (server s) l (uniform s) (draws s)
    (_cache s) (cities s) (graphed_city s) (city_data s) (temp_history s)
    (time_history s) (mqtt s) (published s).

Definition set_draws (n : nat) (s : State) : State :=
  mkState (clock s) (clock_reads s) (server s) (requests s) (uniform s) n
    (_cache s) (cities s) (graphed_city s) (city_data s) (temp_history s)
    (time_history s) (mqtt s) (published s).

Definition set_cache (c : gmap str (float * Reading)) (s : State) : State :=
  mkState (clock s) (clock_reads s) (server s) (requests s) (uniform s)
    (draws s) c (cities s) (graphed_city s) (city_data s) (temp_history s)
    (time_history s) (mqtt s) (published s).

Definition set_city_data (d : gmap str Row) (s : State) : State :=
  mkState (clock s) (clock_reads s) (server s) (requests s) (uniform s)
    (draws s) (_cache s) (cities s) (graphed_city s) d (temp_history s)
    (time_history s) (mqtt s) (published s).

Definition set_history (temps times : list float) (s : State) : State :=
  mkState (clock s) (clock_reads s) (server s) (requests s) (uniform s)
    (draws s) (_cache s) (cities s) (graphed_city s) (city_data s) temps
    times (mqtt s) (published s).

Definition set_published (l : list (str * Payload)) (s : State) : State :=
  mkState (clock s) (clock_reads s) (server s) (requests s) (uniform s)
    (draws s) (_cache s) (cities s) (graphed_city s) (city_data s)
    (temp_history s) (time_history s) (mqtt s) l.

(** *** Computations that read and change the state and may raise *)

Inductive result (A : Type) :=
| Return (a : A)
| Raise (e : exn).
Arguments Return {A} a.
Arguments Raise {A} e.

Definition M (A : Type) : Type := State -> result A * State.

Definition ret {A} (a : A) : M A := fun s => (Return a, s).

Definition raise {A} (e : exn) : M A := fun s => (Raise e, s).

Definition bind {A B} (c : M A) (k : A -> M B) : M B :=
  fun s =>
    match c s with
    | (Return a, s') => k a s'
    | (Raise e, s') => (Raise e, s')
    end.

Notation "'let*' x ':=' c 'in' k" := (bind c (fun x => k))
  (at level 10, x pattern, c at level 100, k at level 200).

(** [try: c except ... as e: handler e]; a handler re-raises what its
    [except] clause does not name. *)
Definition try_except {A} (c : M A) (handler : exn -> M A) : M A :=
  fun s =>
    match c s with
    | (Return a, s') => (Return a, s')
    | (Raise e, s') => handler e s'
    end.

Definition gets {A} (f : State -> A) : M A := fun s => (Return (f s), s).

Definition modify (f : State -> State) : M unit := fun s => (Return tt, f s).

(** [for x in l: body x] *)
Fixpoint for_each {A} (l : list A) (body : A -> M unit) : M unit :=
  match l with
  | [] => ret tt
  | x :: rest => let* _ := body x in for_each rest body
  end.

(** A computation that leaves the state alone and does not depend on it. *)
Definition pure {A} (c : M A) : Prop :=
  exists x, forall s, c s = (x, s).

(** [time.time()], and [datetime.now()] as far as the program uses it. *)
Definition time_time : M float :=
  fun s => (Return (clock s (clock_reads s)),
            set_clock_reads (S (clock_reads s)) s).

(** [random.uniform(-0.2, 0.2)] *)
Definition random_uniform : M float :=
  fun s => (Return (uniform s (draws s)), set_draws (S (draws s)) s).

(** ** [weather_service.py] *)

Module WeatherService.
Import PyStr.

Definition CACHE_DURATION : float := 600%float.

(** [requests.get(url, params=params)] for the URL of [city] *)
Definition requests_get (city : str) : M (Z * option json) :=
  fun s =>
    let s' := set_requests (requests s ++ [city]) s in
    match server s (length (requests s)) city with
    | Unreachable => (Raise ConnectionError, s')
    | Response status_code body => (Return (status_code, body), s')
    end.

(** [response.raise_for_status()]: raises on 4XX/5XX *)
Definition raise_for_status (response : Z * option json) : M unit :=
  if ((400 <=? fst response) && (fst response <? 600))%Z
  then raise (HTTPError (fst response))
  else ret tt.

(** [response.json()] *)
Definition response_json (response : Z * option json) : M json :=
  match snd response with
  | Some raw => ret raw
  | None => raise JSONDecodeError
  end.

Fixpoint dict_get (key : str) (fields : list (str * json)) : option json :=
  match fields with
  | [] => None
  | (k, v) :: rest => if decide (k = key) then Some v else dict_get key rest
  end.

(** [obj[key]] *)
Definition getitem (obj : json) (key : string) : M json :=
  match obj with
  | JObject fields =>
      match dict_get (lit key) fields with
      | Some v => ret v
      | None => raise (KeyError (lit key))
      end
  | _ => raise TypeError
  end.

(** [round(x, 1)]: a float is rounded to a float; an [int] is its own
    rounding, and [True] and [False] round to the ints 1 and 0; nothing
    else has [__round__]. *)
Definition py_round1 `{Builtins} (x : json) : M num :=
  match x with
  | JNumber v => ret (PyFloat (round1 v))
  | JInt z => ret (PyInt z)
  | JBool b => ret (PyInt (if b then 1 else 0))
  | _ => raise TypeError
  end.

(** [x * k] for a float literal [k]: an [int] and a [bool] are converted
    to float first. *)
Definition py_mul (x : json) (k : float) : M json :=
  match x with
  | JNumber v => ret (JNumber (v * k)%float)
  | JInt z =>
      match float_of_int z with
      | Some v => ret (JNumber (v * k)%float)
      | None => raise OverflowError
      end
  | JBool b => ret (JNumber ((if b then 1 else 0) * k)%float)
  | _ => raise TypeError
  end.

(** [x.lower()] *)
Definition py_lower `{Builtins} (x : json) : M str :=
  match x with
  | JString t => ret (lower t)
  | _ => raise AttributeError
  end.

(** The outcome of the cache check at the head of [get_weather]. *)
Inductive cache_check :=
| Fresh (data : Reading)                 (** [return data.copy()] *)
| Miss (cached_data : option Reading).   (** go on and fetch *)

Section GetWeather.
Context `{Builtins}.

Definition check_cache (city : str) : M cache_check :=
  let* cache := gets _cache in
  match cache !! city with
  | Some (timestamp, data) =>
      let* now := time_time in
      if (now - timestamp <? CACHE_DURATION)%float
      then ret (Fresh data)
      else ret (Miss (Some data))
  | None => ret (Miss None)
  end.

(** The [try] block with its [except requests.exceptions.HTTPError]:
    [inl] is the [return cached_data.copy()] of the handler, [inr] the
    response the function goes on with. [cached_data] is [None] or a dict
    of four items, so it counts as true when it is not [None]. The
    handler ends in [raise], and what is no [HTTPError] is not caught. *)
Definition try_request (city : str) (use_cache_on_error : bool)
    (cached_data : option Reading) : M (Reading + (Z * option json)) :=
  try_except
    (let* response := requests_get city in
     let* _ := raise_for_status response in
     ret (inr response))
    (fun e =>
       match e with
       | HTTPError status_code =>
           match (status_code =? 429)%Z && use_cache_on_error, cached_data with
           | true, Some data => ret (inl data)
           | _, _ => raise e
           end
       | _ => raise e
       end).

(** Lines 89-118: the reading built from the decoded body. *)
Definition convert (raw : json) : M Reading :=
  let* current := getitem raw "currentConditions" in
  let* temp := getitem current "temp" in
  let* temperature := py_round1 temp in
  let* hum := getitem current "humidity" in
  let* humidity := py_round1 hum in
  let* windspeed := getitem current "windspeed" in
  let* kmh := py_mul windspeed 1.60934%float in
  let* wind := py_round1 kmh in
  let* text := getitem current "conditions" in
  let* conditions := py_lower text in
  ret (mkReading temperature humidity wind (TextPath.condition_of conditions)).

Definition get_weather (city : str) (use_cache_on_error : bool) : M Reading :=
  let* checked := check_cache city in
  match checked with
  | Fresh data => ret data
  | Miss cached_data =>
      let* fetched := try_request city use_cache_on_error cached_data in
      match fetched with
      | inl data => ret data
      | inr response =>
          let* raw := response_json response in
          let* data := convert raw in
          let* now := time_time in
          let* _ := modify (fun s => set_cache (<[city := (now, data)]> (_cache s)) s) in
          ret data
      end
  end.

End GetWeather.

(** *** What a call finds and leaves *)

(** The number a decoded value is to [round] and to arithmetic: [True] and
    [False] are the ints 1 and 0; [None] for what is no number. *)
Definition number_value (x : json) : option num :=
  match x with
  | JNumber v => Some (PyFloat v)
  | JInt z => Some (PyInt z)
  | JBool b => Some (PyInt (if b then 1 else 0))
  | _ => None
  end.

(** [round(n, 1)] of a number. *)
Definition round_num `{Builtins} (n : num) : num :=
  match n with
  | PyInt z => PyInt z
  | PyFloat v => PyFloat (round1 v)
  end.

(** The state after one more reading of the clock. *)
Definition tick (s : State) : State := set_clock_reads (S (clock_reads s)) s.

(** The state after one more request, for [city]. *)
Definition asked (city : str) (s : State) : State :=
  set_requests (requests s ++ [city]) s.

(** What the provider answers to the next request. *)
Definition answer (s : State) (city : str) : http_outcome :=
  server s (length (requests s)) city.

(** The status codes [raise_for_status] raises on. *)
Definition is_error (status_code : Z) : bool :=
  ((400 <=? status_code) && (status_code <? 600))%Z.

(** Whether the cache holds an entry for [city] that the next reading of
    the clock finds younger than [CACHE_DURATION]. *)
Definition fresh_entry (s : State) (city : str) : bool :=
  match _cache s !! city with
  | Some (timestamp, _) =>
      (clock s (clock_reads s) - timestamp <? CACHE_DURATION)%float
  | None => false
  end.

(** The reading the cache holds for [city], of whatever age. *)
Definition prior_entry (s : State) (city : str) : option Reading :=
  match _cache s !! city with
  | Some (_, data) => Some data
  | None => None
  end.

(** The state after the cache check: the clock is read if there is an
    entry to date. *)
Definition after_check (s : State) (city : str) : State :=
  match _cache s !! city with
  | Some _ => tick s
  | None => s
  end.

End WeatherService.

(** ** [app.py]: the polling loop of the GUI *)

Module WeatherApp.
Import PyStr.

Definition DEFAULT_HISTORY : nat := 60.

(** [d.append(x)] on a [deque(maxlen=maxlen)]: the item is added on the
    right and, if the deque then holds more than [maxlen] items, the
    leftmost one is dropped. *)
Definition deque_append {A} (maxlen : nat) (x : A) (d : list A) : list A :=
  let d' := d ++ [x] in
  if (maxlen <? length d')%nat then drop 1 d' else d'.

(** The row [__init__] gives every city: ["-- °C"], ["-- %"], ["-- km/h"]
    and the partly-cloudy icon. *)
Definition initial_row : Row :=
  mkRow (lit "-- " ++ [176] ++ lit "C") (lit "-- %") (lit "-- km/h")
        (Numeric.WEATHER_ICONS Numeric.partly_cloudy).

(** The dummy data of [_get_weather_data]; its condition is U+2753. *)
Definition dummy_data : Reading :=
  mkReading (PyFloat 20.0) (PyFloat 50.0) (PyFloat 0.0) [10067].

Section App.
Context `{Builtins}.

Definition _get_weather_data (city : str) : M Reading :=
  try_except (WeatherService.get_weather city true)
    (fun e => if is_RequestException e then ret dummy_data else raise e).

(** [temp + variation] for a float [variation] *)
Definition py_add (temp : num) (variation : float) : M float :=
  match as_float temp with
  | Some x => ret (x + variation)%float
  | None => raise OverflowError
  end.

Definition _append_data (temp : num) : M unit :=
  let* current_time := time_time in
  let* drawn := random_uniform in
  let variation := round1 drawn in
  let* sum := py_add temp variation in
  let display_temp := round1 sum in
  modify (fun s =>
    set_history (deque_append DEFAULT_HISTORY display_temp (temp_history s))
                (deque_append DEFAULT_HISTORY current_time (time_history s)) s).

(** [_update_graph], as far as it can raise: [set_ylim] refuses a limit
    that is NaN or infinite with a [ValueError]; the tick labels are within
    the history. What is drawn is the history itself. *)
Definition _update_graph : M unit :=
  let* times := gets time_history in
  match times with
  | [] => ret tt
  | _ :: _ =>
      let* temps := gets temp_history in
      let latest_temp := default 0%float (last temps) in
      let y_min := (latest_temp - 1)%float in
      let y_max := (latest_temp + 1)%float in
      if is_finite y_min && is_finite y_max then ret tt else raise ValueError
  end.

(** The texts of the four [StringVar.set] calls. *)
Definition row_of (data : Reading) : Row :=
  mkRow (num_text (temperature data) ++ lit " " ++ [176] ++ lit "C")
        (num_text (humidity data) ++ lit " %")
        (num_text (wind data) ++ lit " km/h")
        (condition data).

(** "Update UI for this city": [self.city_data[city]] raises [KeyError]
    for a city without a row. *)
Definition update_ui (city : str) (data : Reading) : M unit :=
  let* rows := gets city_data in
  match rows !! city with
  | Some _ => modify (fun s => set_city_data (<[city := row_of data]> (city_data s)) s)
  | None => raise (KeyError city)
  end.

(** "Publish via MQTT if available": the thread that publishes is started
    and not waited for. *)
Definition publish (city : str) (data : Reading) : M unit :=
  let* client := gets mqtt in
  match client with
  | Some true =>
      let* now := time_time in
      let payload := mkPayload now city (temperature data) (humidity data)
                               (wind data) (condition data) in
      let topic := lit "weather/" ++ Topic.sanitize_topic city in
      modify (fun s => set_published (published s ++ [(topic, payload)]) s)
  | _ => ret tt
  end.

(** The body of the [for city in self.cities] loop of [update_loop]. *)
Definition update_city (city : str) : M unit :=
  let* got :=
    try_except (let* data := _get_weather_data city in ret (Some data))
               (fun _ => ret None) in
  match got with
  | None => ret tt
  | Some data =>
      let* _ := update_ui city data in
      let* graphed := gets graphed_city in
      let* _ := if decide (city = graphed)
                then let* _ := _append_data (temperature data) in _update_graph
                else ret tt in
      publish city data
  end.

(** One tick; its last statement asks Tk to call [update_loop] again. *)
Definition update_loop : M unit :=
  let* names := gets cities in
  for_each names update_city.

(** [__init__], from the names [_get_city_names] returned (never an empty
    list) and on top of the state of the world and of the service. *)
Definition init (first : str) (others : list str) (mqtt_client : option bool)
  : M unit :=
  let names := first :: others in
  let* _ := modify (fun s =>
    mkState (clock s) (clock_reads s) (server s) (requests s) (uniform s)
      (draws s) (_cache s) names first
      (foldl (fun rows city => <[city := initial_row]> rows) ∅ names)
      [] [] mqtt_client (published s)) in
  try_except
    (let* data := _get_weather_data first in _append_data (temperature data))
    (fun _ => _append_data (PyFloat 20.0)).

(** The ticks Tk runs one after the other; a tick that raises does not
    ask for the next one. *)
Fixpoint run_ticks (n : nat) (s : State) : State :=
  match n with
  | O => s
  | S n' =>
      match update_loop s with
      | (Return _, s') => run_ticks n' s'
      | (Raise _, s') => s'
      end
  end.

End App.

(** *** What a tick finds and leaves *)

(** Every configured city has its row, as [__init__] sees to. *)
Definition rows_for_all (s : State) : Prop :=
  Forall (fun city => is_Some (city_data s !! city)) (cities s).

(** The chart history is within its capacity. *)
Definition history_bounded (s : State) : Prop :=
  (length (temp_history s) <= DEFAULT_HISTORY)%nat
  /\ (length (time_history s) <= DEFAULT_HISTORY)%nat.

(** The point [_append_data] adds to the chart in state [s]. *)
Definition display_temp `{Builtins} (temp : float) (s : State) : float :=
  round1 (temp + round1 (uniform s (draws s)))%float.

(** Whether [set_ylim] takes the limits around [latest_temp]. *)
Definition drawable (latest_temp : float) : bool :=
  is_finite (latest_temp - 1) && is_finite (latest_temp + 1).


(** One round of the loop of [update_loop], as a change of state. *)
Definition round_for `{Builtins} (s : State) (city : str) : State :=
  snd (update_city city s).

(** The message a round hands to MQTT for the reading it shows, if the
    client is connected. *)
Definition sent `{Builtins} (city : str) (data : Reading) (now : float)
    (s : State) : list (str * Payload) :=
  if decide (mqtt s = Some true)
  then [(lit "weather/" ++ Topic.sanitize_topic city,
         mkPayload now city (temperature data) (humidity data) (wind data)
                   (condition data))]
  else [].

(** Two states with the same fields of [WeatherApp]. *)
Definition same_app (s s' : State) : Prop :=
  cities s' = cities s /\ graphed_city s' = graphed_city s
  /\ city_data s' = city_data s /\ temp_history s' = temp_history s
  /\ time_history s' = time_history s /\ mqtt s' = mqtt s
  /\ published s' = published s.

End WeatherApp.

(** ** A runtime and a world to run the program in *)

Module Example.
Import PyStr.

(** [num / den] rounded to the nearest integer, ties to even
    ([num >= 0], [den > 0]). *)
Definition round_half_even (num den : Z) : Z :=
  let q := (num / den)%Z in
  match (2 * (num mod den) ?= den)%Z with
  | Lt => q
  | Eq => if Z.even q then q else (q + 1)%Z
  | Gt => (q + 1)%Z
  end.

(** The float nearest to [num / den], of the given sign: the quotient is
    taken to 64 binary places, with one more bit that says whether anything
    is left below them, and rounded from there. *)
Definition nearest_float (negative : bool) (num den : Z) : float :=
  let scaled := (num * 2 ^ 64)%Z in
  let sticky := if (scaled mod den =? 0)%Z then 0%Z else 1%Z in
  let m := (2 * (scaled / den) + sticky)%Z in
  SF2Prim (binary_normalize prec emax (if negative then (- m)%Z else m)
                            (-65)%Z negative).

(** The number of tenths nearest to a finite float that is not zero. *)
Definition tenths_of (m : positive) (e : Z) : Z :=
  if (0 <=? e)%Z then (Zpos m * 2 ^ e * 10)%Z
  else round_half_even (Zpos m * 10) (2 ^ (- e)).

(** [round(x, 1)]: the float nearest to the nearest number of tenths;
    zeros, infinities, NaN and whole floats are returned as they are. *)
Definition round_tenths (x : float) : float :=
  match Prim2SF x with
  | S754_finite negative m e =>
      if (0 <=? e)%Z then x else nearest_float negative (tenths_of m e) 10
  | _ => x
  end.

Definition digits (n : Z) : str :=
  lit (NilZero.string_of_uint (N.to_uint (Z.to_N n))).

(** [str(x)] for the floats [round(_, 1)] returns below 10^16 in
    magnitude, and the same writing in tenths for the others. *)
Definition tenths_text (x : float) : str :=
  match Prim2SF x with
  | S754_zero negative => lit (if negative then "-0.0" else "0.0")
  | S754_infinity negative => lit (if negative then "-inf" else "inf")
  | S754_nan => lit "nan"
  | S754_finite negative m e =>
      (if negative then lit "-" else [])
      ++ digits (tenths_of m e / 10) ++ lit "." ++ digits (tenths_of m e mod 10)
  end.

(** A runtime: code points above Latin-1 are taken to have no lower case. *)
Definition runtime : Builtins :=
  {| lower_wide := fun _ c _ => [c];
     round1 := round_tenths;
     float_text := tenths_text;
     json_error_is_request_exception := true |}.

Definition london : str := lit "London".
Definition paris : str := lit "Paris".
Definition oslo : str := lit "Oslo".

(** A body as the provider sends it. *)
Definition body (temp hum windspeed : float) (text : string) : json :=
  JObject [ (lit "address", JString london);
            (lit "currentConditions",
             JObject [ (lit "temp", JNumber temp);
                       (lit "humidity", JNumber hum);
                       (lit "windspeed", JNumber windspeed);
                       (lit "conditions", JString (lit text)) ]) ].

(** A provider that cannot be reached for Paris and answers for every
    other city. *)
Definition provider (n : nat) (city : str) : http_outcome :=
  if decide (city = paris) then Unreachable
  else Response 200 (Some (body 12.34 80.26 10 "Rain, Partially cloudy")).

(** A provider whose body for Oslo lacks the current conditions. *)
Definition incomplete (n : nat) (city : str) : http_outcome :=
  if decide (city = oslo)
  then Response 200 (Some (JObject [ (lit "address", JString oslo) ]))
  else Response 200 (Some (body 12.34 80.26 10 "Rain, Partially cloudy")).

(** A provider that is over its rate limit. *)
Definition limited (n : nat) (city : str) : http_outcome :=
  Response 429 None.

(** A clock that is read every 100 seconds. *)
Fixpoint reading (n : nat) : float :=
  match n with
  | O => 1000
  | S n' => (reading n' + 100)%float
  end.

(** The world before the application starts. *)
Definition world (server : nat -> str -> http_outcome) : State :=
  mkState reading 0 server [] (fun _ => 0.13%float) 0 ∅ [] [] ∅ [] [] None [].

(** The application started for three cities. *)
Definition started : State :=
  snd (@WeatherApp.init runtime london [paris; oslo] None (world provider)).

(** The application started for three cities, with the provider whose body
    for Oslo is incomplete. *)
Definition started_incomplete : State :=
  snd (@WeatherApp.init runtime london [paris; oslo] None (world incomplete)).

(** What London's body makes. *)
Definition rainy_reading : Reading :=
  mkReading (PyFloat 12.3) (PyFloat 80.3) (PyFloat 16.1) (TextPath.glyph Rain).

(** A cache that holds a reading of London taken at time 0, and a provider
    over its limit. *)
Definition stale : State :=
  set_cache {[ london := (0%float, rainy_reading) ]} (world limited).



(** A state whose chart is full. *)
Definition full_chart : State :=
  mkState reading 0 provider [] (fun _ => 0.13%float) 0 ∅ [london] london
    {[ london := WeatherApp.initial_row ]}
    (replicate 60 20.5%float) (replicate 60 0%float) None [].

End Example.

(** ** The topic of a city *)

Module MqttTopic.
Import PyStr Topic.

(** [[a-z0-9]] *)
Definition is_alnum (c : N) : bool := between 97 122 c || between 48 57 c.

(** The topic [update_loop] and [_simulate_data] publish a city on. *)
Definition topic_of `{Builtins} (city : str) : str :=
  lit "weather/" ++ sanitize_topic city.

End MqttTopic.

(** ** The service over a run of calls *)

Module ServiceRuns.
Import PyStr WeatherService.

(** [WeatherService.__init__]: the key given, or else the one of the
    environment variable; [ValueError] when neither holds a character. The
    cache starts empty. [None] stands for the [ValueError]. *)
Definition __init__ (api_key env_key : option str)
  : option (str * gmap str (float * Reading)) :=
  let chosen :=
    match api_key with
    | Some (c :: k) => Some (c :: k)
    | _ => env_key
    end in
  match chosen with
  | Some (c :: k) => Some (c :: k, ∅)
  | _ => None
  end.

(** A run of calls of [get_weather], one after the other, with what each
    returned or raised. *)
Fixpoint calls `{Builtins} (l : list (str * bool)) (s : State)
  : list (result Reading) * State :=
  match l with
  | [] => ([], s)
  | (city, use_cache_on_error) :: rest =>
      let (r, s') := get_weather city use_cache_on_error s in
      let (rs, s'') := calls rest s' in
      (r :: rs, s'')
  end.

(** Every cached reading has one of the eight condition strings and is
    dated with a reading of the clock taken before. *)
Definition cache_sound (s : State) : Prop :=
  forall city timestamp data,
    _cache s !! city = Some (timestamp, data) ->
    (exists c, condition data = TextPath.glyph c)
    /\ exists n, (n < clock_reads s)%nat /\ timestamp = clock s n.

End ServiceRuns.

(** ** What a round shows and charts *)

Module AppRounds.
Import PyStr WeatherService WeatherApp.

(** The reading a message carries. *)
Definition reading_of (p : Payload) : Reading :=
  mkReading (p_temperature p) (p_humidity p) (p_wind p) (p_condition p).

(** The chart holds as many temperatures as times, and at least one. *)
Definition chart_aligned (s : State) : Prop :=
  length (temp_history s) = length (time_history s)
  /\ (1 <= length (temp_history s))%nat.

End AppRounds.

(** ** The names of the cities *)

Module CityNames.
Import PyStr.

(** [s.split(sep)] for a separator of one character. *)
Fixpoint split (sep : N) (s : str) : list str :=
  match s with
  | [] => [[]]
  | c :: rest =>
      if c =? sep then [] :: split sep rest
      else match split sep rest with
           | piece :: pieces => (c :: piece) :: pieces
           | [] => [[c]]
           end
  end.

(** [sep.join(l)] *)
Fixpoint join (sep : str) (l : list str) : str :=
  match l with
  | [] => []
  | x :: rest =>
      match rest with
      | [] => x
      | _ :: _ => x ++ sep ++ join sep rest
      end
  end.

(** The truth value of a string. *)
Definition nonempty (s : str) : bool :=
  match s with
  | [] => false
  | _ :: _ => true
  end.

(** [[city.strip() for city in text.split(",") if city.strip()]], as
    [_get_city_names] and [main] read the names of the cities. *)
Definition names_in (text : str) : list str :=
  List.filter nonempty (map (strip isspace) (split 44 text)).

(** [_get_city_names], on the answers the user gives to the dialog one
    after the other ([None] for a dialog that is cancelled); [None] when the
    answers end with the dialog still asking. *)
Fixpoint _get_city_names (answers : list (option str)) : option (list str) :=
  match answers with
  | [] => None
  | cities_input :: later =>
      match cities_input with
      | None | Some [] => Some [lit "Demo City"]
      | Some text =>
          match names_in text with
          | [] => _get_city_names later
          | cities => Some cities
          end
      end
  end.

(** A name as the program keeps it: not empty, without a comma, without
    white space at either end. *)
Definition clean (name : str) : Prop :=
  name <> [] /\ ~ In 44 name
  /\ (forall c, head name = Some c -> isspace c = false)
  /\ (forall c, last name = Some c -> isspace c = false).

End CityNames.

(** ** The ticks of the chart *)

Module Chart.

(** [list(range(0, stop, step))] for a step of at least one: Python gives
    a range its length, [(stop + step - 1) // step] here, and its i-th item,
    [i * step]. *)
Definition py_range (stop step : nat) : list nat :=
  map (fun i => i * step)%nat (seq 0 ((stop + step - 1) / step)).

(** The places of the tick labels [_update_graph] sets, for a chart of
    [n] points. *)
Definition xticks (n : nat) : list nat :=
  if (1 <? n)%nat then py_range n (Nat.max 1 (n / 6)) else [].

(** [[times[i] for i in xticks]]; [None] stands for an [IndexError]. *)
Definition xticklabels {A} (times : list A) : option (list A) :=
  mapM (fun i => times !! i) (xticks (length times)).

(** The right end of the x axis, [max(len(temps) - 1, DEFAULT_HISTORY)];
    [_update_graph] returns before it for an empty history. *)
Definition xlim_right (n : nat) : nat :=
  Nat.max (n - 1) WeatherApp.DEFAULT_HISTORY.

End Chart.

(** ** The headless simulator *)

Module Headless.
Import PyStr MqttTopic.

(** A line [_simulate_data] prints: the report of a city, or the notice of
    a log line that could not be written. *)
Inductive line :=
| Report (city : str) (t h w : num) (condition : str)
| WriteError.

Record Sim := mkSim {
  (** [HeadlessWeatherSimulator]: the cities, the MQTT client, if any, with
      its [_connected] flag as it stands during the pass (the callbacks that
      set it run on another thread), and the path of the log file, if any *)
  sim_cities : list str;
  sim_mqtt : option bool;
  sim_log_file : option str;
  (** the world: the n-th draw of [random.uniform], given its bounds; the
      n-th reading of the clock; whether the n-th attempt to append to the
      log file succeeds (one that raises is taken to leave no line) *)
  sim_uniform : nat -> float -> float -> float;
  sim_draws : nat;
  sim_clock : nat -> float;
  sim_clock_reads : nat;
  disk : nat -> bool;
  attempts : nat;
  (** what has come out: the messages handed to MQTT, the lines of the log
      file, the lines printed *)
  sim_published : list (str * Payload);
  log : list Payload;
  stdout : list line
}.

Section Simulator.
Context `{Builtins}.

(** The reading simulated for a city, as the payload made of it: four
    draws, the condition of the numeric classifier and the time. *)
Definition payload_for (city : str) (s : Sim) : Payload :=
  let n := sim_draws s in
  let t := round1 (sim_uniform s n 10 35
                   + sim_uniform s (n + 1) (-1.5) 1.5)%float in
  let h := round1 (sim_uniform s (n + 2) 20 90) in
  let w := round1 (sim_uniform s (n + 3) 0 65) in
  let condition := Numeric.get_weather_condition t h in
  mkPayload (sim_clock s (sim_clock_reads s)) city
            (PyFloat t) (PyFloat h) (PyFloat w) condition.

(** The body of the loop of [_simulate_data]: the payload goes to MQTT if
    the client is connected, to the log file if there is one and it can be
    written, and to the standard output in any case, after the notice of a
    failed write. *)
Definition simulate_city (city : str) (s : Sim) : Sim :=
  let payload := payload_for city s in
  let published' :=
    match sim_mqtt s with
    | Some true => sim_published s ++ [(topic_of city, payload)]
    | _ => sim_published s
    end in
  let '(log', attempts', notice) :=
    match sim_log_file s with
    | Some (_ :: _) =>
        if disk s (attempts s)
        then (log s ++ [payload], S (attempts s), [])
        else (log s, S (attempts s), [WriteError])
    | _ => (log s, attempts s, [])
    end in
  mkSim (sim_cities s) (sim_mqtt s) (sim_log_file s)
        (sim_uniform s) (sim_draws s + 4) (sim_clock s)
        (S (sim_clock_reads s)) (disk s) attempts'
        published' log'
        (stdout s ++ notice
         ++ [Report city (p_temperature payload) (p_humidity payload)
                    (p_wind payload) (p_condition payload)]).

Definition _simulate_data (s : Sim) : Sim :=
  foldl (fun s city => simulate_city city s) s (sim_cities s).

(** The payloads a run of the loop over [l] makes, city by city. *)
Fixpoint payloads (l : list str) (s : Sim) : list Payload :=
  match l with
  | [] => []
  | city :: rest => payload_for city s :: payloads rest (simulate_city city s)
  end.

End Simulator.

(** The cities reported on the lines printed. *)
Fixpoint reported (lines : list line) : list str :=
  match lines with
  | [] => []
  | Report city _ _ _ _ :: rest => city :: reported rest
  | WriteError :: rest => reported rest
  end.

(** The payload is that of a simulated reading: its numbers are floats
    and its condition is the one the numeric classifier gives its
    temperature and humidity. *)
Definition simulated (p : Payload) : Prop :=
  exists t h w,
    p_temperature p = PyFloat t /\ p_humidity p = PyFloat h
    /\ p_wind p = PyFloat w
    /\ p_condition p = Numeric.get_weather_condition t h.

(** The log file is in use. *)
Definition logging (s : Sim) : bool :=
  match sim_log_file s with
  | Some (_ :: _) => true
  | _ => false
  end.

End Headless.

(** ** The entry point *)

Module Main.
Import PyStr CityNames.

(** What [main] goes on to do, as far as its arguments decide it. *)
Inductive mode :=
| Exit1
| Simulator (cities : list str)
| Gui.

(** [main], from [--headless] and [--cities]: without cities the headless
    mode returns 1; with them it starts a simulator on the names read from
    the text; the other mode starts the window. The MQTT client it sets up
    in between decides neither. *)
Definition main (headless : bool) (cities : option str) : mode :=
  if headless && negb (match cities with Some (_ :: _) => true | _ => false end)
  then Exit1
  else if headless
       then Simulator (match cities with
                       | Some text => names_in text
                       | None => []  (* not reached: returned 1 above *)
                       end)
       else Gui.

End Main.

(** ** More worlds to run the program in *)

Module Scenes.
Import PyStr Example.

(** A clock that stands at 1000, a provider over its limit and a cache
    that holds a reading of London taken at time 0. *)
Definition frozen : State :=
  mkState (fun _ => 1000%float) 0 limited [] (fun _ => 0.13%float) 0
    {[ london := (0%float, rainy_reading) ]} [] [] ∅ [] [] None [].

(** The application started for Paris and London with a connected MQTT
    client; Paris is the graphed city. *)
Definition connected : State :=
  snd (@WeatherApp.init runtime paris [london] (Some true) (world provider)).

(** The names the dialog offers. *)
Definition offered : list str :=
  [lit "London"; lit "Paris"; lit "New York"].

End Scenes.

(* ===================================================================== *)
(** * Properties *)

(** ** Strings *)

Module PyStrFacts.
Import PyStr.

(** Turns the boolean range tests of a goal or hypothesis into arithmetic. *)
Ltac to_arith :=
  unfold Topic.is_sep, Topic.is_topic_char, Topic.is_underscore, isspace,
    lower_latin1, between in *;
  repeat rewrite ?orb_true_iff, ?andb_true_iff, ?negb_true_iff,
    ?orb_false_iff, ?andb_false_iff, ?negb_false_iff,
    ?N.leb_le, ?N.ltb_lt, ?N.eqb_eq, ?N.leb_gt, ?N.ltb_ge, ?N.eqb_neq in *.

Lemma drop_while_Forall p q s :
  Forall q s -> Forall q (drop_while p s).
Proof.
  induction 1 as [|c s Hc Hs IH]; simpl; [constructor|].
  destruct (p c); [exact IH | constructor; assumption].
Qed.

Lemma drop_while_head p s : forall c, head (drop_while p s) = Some c -> p c = false.
Proof.
  induction s as [|d s IH]; simpl; intros c; [discriminate|].
  destruct (p d) eqn:E; [apply IH|]. simpl. intros [= <-]. exact E.
Qed.

Lemma drop_while_id p s :
  (forall c, head s = Some c -> p c = false) -> drop_while p s = s.
Proof.
  destruct s as [|d s]; simpl; [reflexivity|].
  intros Hd. rewrite (Hd d eq_refl). reflexivity.
Qed.

(** What [drop_while] removes is a block of matching characters. *)
Lemma drop_while_split p s :
  exists pre, s = pre ++ drop_while p s /\ Forall (fun c => p c = true) pre.
Proof.
  induction s as [|d s [pre [E F]]]; simpl.
  - exists []. split; [reflexivity | constructor].
  - destruct (p d) eqn:Hd.
    + exists (d :: pre). split; [simpl; congruence | constructor; assumption].
    + exists []. split; [reflexivity | constructor].
Qed.

Lemma lstrip_head p s c : head (lstrip p s) = Some c -> p c = false.
Proof. apply drop_while_head. Qed.

Lemma rstrip_last p s c : last (rstrip p s) = Some c -> p c = false.
Proof.
  unfold rstrip. rewrite last_reverse. apply drop_while_head.
Qed.

(** [rstrip] keeps the first character of what it leaves. *)
Lemma rstrip_head p s c : head (rstrip p s) = Some c -> head s = Some c.
Proof.
  unfold rstrip. destruct (drop_while_split p (reverse s)) as [pre [E _]].
  intros Hh. apply (f_equal reverse) in E.
  rewrite reverse_involutive, reverse_app in E.
  remember (reverse (drop_while p (reverse s))) as t eqn:Et. clear Et.
  subst s. destruct t as [|d r]; [discriminate|]. exact Hh.
Qed.

Lemma strip_head p s c : head (strip p s) = Some c -> p c = false.
Proof. intros Hh. apply rstrip_head in Hh. exact (lstrip_head _ _ _ Hh). Qed.

Lemma strip_last p s c : last (strip p s) = Some c -> p c = false.
Proof. apply rstrip_last. Qed.

Lemma strip_fixpoint p s :
  (forall c, head s = Some c -> p c = false) ->
  (forall c, last s = Some c -> p c = false) ->
  strip p s = s.
Proof.
  intros Hh Hl. unfold strip, lstrip, rstrip.
  rewrite (drop_while_id p s Hh).
  rewrite drop_while_id; [apply reverse_involutive|].
  intros c Hc. apply Hl. rewrite <- (reverse_involutive s), last_reverse. exact Hc.
Qed.

Lemma strip_idempotent p s : strip p (strip p s) = strip p s.
Proof. apply strip_fixpoint; [apply strip_head | apply strip_last]. Qed.

(** [strip] removes a block of matching characters at each end. *)
Lemma strip_split p s :
  exists pre suf, s = pre ++ strip p s ++ suf
    /\ Forall (fun c => p c = true) pre /\ Forall (fun c => p c = true) suf.
Proof.
  destruct (drop_while_split p s) as [pre [E1 F1]].
  destruct (drop_while_split p (reverse (lstrip p s))) as [suf [E2 F2]].
  exists pre, (reverse suf). split; [|split].
  - unfold strip at 1, rstrip. rewrite <- reverse_app.
    unfold lstrip in *. rewrite <- E2, reverse_involutive. exact E1.
  - exact F1.
  - apply Forall_reverse. exact F2.
Qed.

Lemma strip_Forall p q s : Forall q s -> Forall q (strip p s).
Proof.
  intros F. unfold strip, rstrip, lstrip.
  apply Forall_reverse, drop_while_Forall, Forall_reverse, drop_while_Forall, F.
Qed.

Lemma re_sub_plus_none cls repl s :
  Forall (fun c => cls c = false) s -> re_sub_plus cls repl s = s.
Proof.
  induction 1 as [|c s Hc Hs IH]; simp re_sub_plus; [reflexivity|].
  rewrite Hc, IH. reflexivity.
Qed.

Lemma re_sub_char_delete cls s :
  re_sub_char cls [] s = List.filter (fun c => negb (cls c)) s.
Proof.
  induction s as [|c s IH]; simpl; [reflexivity|].
  rewrite IH. destruct (cls c); reflexivity.
Qed.

Lemma filter_id (p : N -> bool) s :
  Forall (fun c => p c = true) s -> List.filter p s = s.
Proof.
  induction 1 as [|c s Hc Hs IH]; simpl; [reflexivity|].
  rewrite Hc, IH. reflexivity.
Qed.

Lemma filter_Forall (p : N -> bool) s :
  Forall (fun c => p c = true) (List.filter p s).
Proof.
  induction s as [|c s IH]; simpl; [constructor|].
  destruct (p c) eqn:E; [constructor; assumption | exact IH].
Qed.

Section LowerFacts.
Context `{Builtins}.

Lemma lower_from_fixed before s :
  Forall (fun c => (c <? 256) = true /\ lower_latin1 c = c) s ->
  lower_from before s = s.
Proof.
  intros F. revert before.
  induction F as [|c s [Hc Hl] Hs IH]; intros before; simpl; [reflexivity|].
  rewrite Hc, Hl, IH. reflexivity.
Qed.

End LowerFacts.

End PyStrFacts.

(** ** The topic sanitiser *)

Module TopicFacts.
Import PyStr PyStrFacts Topic.

(** *** [runs] does cut a text into its maximal runs *)

Lemma runs_concat s : concat (map snd (runs s)) = s.
Proof.
  induction s as [|c s IH]; simpl; [reflexivity|].
  destruct (runs s) as [|[b run] more]; simpl in *.
  - subst s. reflexivity.
  - destruct (Bool.eqb b (is_sep c)); simpl; rewrite IH; reflexivity.
Qed.

Lemma runs_homogeneous s :
  Forall (fun r : bool * str =>
            snd r <> [] /\ Forall (fun c => is_sep c = fst r) (snd r))
         (runs s).
Proof.
  induction s as [|c s IH]; simpl; [constructor|].
  destruct (runs s) as [|[b run] more]; simpl in *.
  - repeat constructor. discriminate.
  - inversion IH as [|? ? [Hne Hrun] Hmore]; subst.
    destruct (Bool.eqb b (is_sep c)) eqn:E.
    + apply Bool.eqb_prop in E. constructor; [|exact Hmore].
      simpl in *. split; [discriminate|]. constructor; [congruence | exact Hrun].
    + constructor; [|exact IH]. simpl. split; [discriminate|].
      repeat constructor.
Qed.

Lemma runs_maximal s : alternating (runs s).
Proof.
  induction s as [|c s IH]; simpl; [exact I|].
  destruct (runs s) as [|[b run] more]; simpl in *; [exact I|].
  destruct (Bool.eqb b (is_sep c)) eqn:E.
  - destruct more; [exact I | exact IH].
  - simpl. split; [|exact IH].
    intros Hb. rewrite <- Hb, Bool.eqb_reflx in E. discriminate.
Qed.

Lemma runs_head c s :
  exists run more, runs (c :: s) = (is_sep c, run) :: more.
Proof.
  simpl. destruct (runs s) as [|[b run] more]; [eauto|].
  destruct (Bool.eqb b (is_sep c)) eqn:E; [|eauto].
  apply Bool.eqb_prop in E. subst b. eauto.
Qed.

(** *** The regular expression collapses exactly the maximal runs *)

Lemma collapse_runs_keep c s :
  is_sep c = false -> collapse_runs (c :: s) = c :: collapse_runs s.
Proof.
  intros Hc. unfold collapse_runs. simpl. rewrite Hc.
  destruct (runs s) as [|[[|] run] more]; simpl; rewrite ?Hc; reflexivity.
Qed.

Lemma collapse_runs_sep c s :
  is_sep c = true ->
  collapse_runs (c :: s) = lit "_" ++ collapse_runs (drop_while is_sep s).
Proof.
  intros Hc. revert c Hc. induction s as [|d s IH]; intros c Hc.
  - unfold collapse_runs. simpl. rewrite Hc. reflexivity.
  - simpl drop_while. destruct (is_sep d) eqn:Hd.
    + rewrite <- (IH d Hd). unfold collapse_runs.
      destruct (runs_head d s) as [run [more E]].
      change (runs (c :: d :: s)) with
        (match runs (d :: s) with
         | (b, run) :: more =>
             if Bool.eqb b (is_sep c) then (b, c :: run) :: more
             else (is_sep c, [c]) :: (b, run) :: more
         | [] => [(is_sep c, [c])]
         end).
      rewrite E, Hd, Hc. reflexivity.
    + unfold collapse_runs. destruct (runs_head d s) as [run [more E]].
      change (runs (c :: d :: s)) with
        (match runs (d :: s) with
         | (b, run) :: more =>
             if Bool.eqb b (is_sep c) then (b, c :: run) :: more
             else (is_sep c, [c]) :: (b, run) :: more
         | [] => [(is_sep c, [c])]
         end).
      rewrite E, Hd, Hc. reflexivity.
Qed.

Lemma re_sub_plus_collapse s :
  re_sub_plus is_sep (lit "_") s = collapse_runs s.
Proof.
  funelim (re_sub_plus is_sep (lit "_") s); [reflexivity|].
  destruct (is_sep c) eqn:Hc.
  - rewrite collapse_runs_sep by exact Hc. f_equal. assumption.
  - rewrite collapse_runs_keep by exact Hc. f_equal. assumption.
Qed.

Lemma re_sub_char_delete_invalid s :
  re_sub_char (fun c => negb (is_topic_char c)) [] s = delete_invalid s.
Proof.
  rewrite re_sub_char_delete. unfold delete_invalid.
  induction s as [|c s IH]; simpl; [reflexivity|].
  rewrite negb_involutive, IH. reflexivity.
Qed.

Section Sanitize.
Context `{Builtins}.

Lemma sanitize_topic_unfold name :
  sanitize_topic name
  = strip is_underscore (delete_invalid (collapse_runs (lower name))).
Proof.
  unfold sanitize_topic. cbv zeta.
  rewrite re_sub_plus_collapse, re_sub_char_delete_invalid. reflexivity.
Qed.

Lemma sanitize_topic_chars name :
  Forall (fun c => is_topic_char c = true) (sanitize_topic name).
Proof.
  rewrite sanitize_topic_unfold. apply strip_Forall, filter_Forall.
Qed.

Lemma topic_char_not_sep c : is_topic_char c = true -> is_sep c = false.
Proof.
  intros Ht. apply not_true_is_false. intros Hs. to_arith. lia.
Qed.

Lemma topic_char_lower c :
  is_topic_char c = true -> (c <? 256) = true /\ lower_latin1 c = c.
Proof.
  intros Ht. split.
  - to_arith. lia.
  - unfold lower_latin1.
    assert (between 65 90 c = false) as -> by (apply not_true_is_false; intros Hs; to_arith; lia).
    assert (between 192 222 c = false) as -> by (apply not_true_is_false; intros Hs; to_arith; lia).
    reflexivity.
Qed.

(** C6. [sanitize_topic] is a total function that lower-cases the name,
    replaces every maximal run of whitespace and of the characters
    [- . , ! ?] by one underscore, deletes every remaining character that is
    not a lowercase ASCII letter, a digit or an underscore, and strips the
    underscores at both ends: what it returns is the text so obtained
    without a block of underscores before and a block after, and neither
    starts nor ends with an underscore. "New York City!" gives
    "new_york_city", three spaces give the empty string, and "Zürich"
    (U+00FC in second place) gives "zrich". *)
Theorem sanitize_topic_algorithm :
  (forall name : str,
     exists pre suf : str,
       delete_invalid (collapse_runs (lower name))
         = pre ++ sanitize_topic name ++ suf
       /\ Forall (fun c => c = 95) pre /\ Forall (fun c => c = 95) suf
       /\ head (sanitize_topic name) <> Some 95
       /\ last (sanitize_topic name) <> Some 95)
  /\ sanitize_topic (lit "New York City!") = lit "new_york_city"
  /\ sanitize_topic (lit "   ") = []
  /\ sanitize_topic (lit "Z" ++ [252] ++ lit "rich") = lit "zrich".
Proof.
  split; [|repeat split; vm_compute; reflexivity].
  intros name. rewrite sanitize_topic_unfold.
  set (t := delete_invalid (collapse_runs (lower name))).
  destruct (strip_split is_underscore t) as [pre [suf [E [Fp Fs]]]].
  exists pre, suf. repeat split.
  - exact E.
  - eapply Forall_impl; [exact Fp|]. intros c Hc. apply N.eqb_eq, Hc.
  - eapply Forall_impl; [exact Fs|]. intros c Hc. apply N.eqb_eq, Hc.
  - intros Hh. apply strip_head in Hh. discriminate.
  - intros Hl. apply strip_last in Hl. discriminate.
Qed.

(** C7. [sanitize_topic] is idempotent. *)
Theorem sanitize_topic_idempotent (x : str) :
  sanitize_topic (sanitize_topic x) = sanitize_topic x.
Proof.
  pose proof (sanitize_topic_chars x) as Hc.
  rewrite (sanitize_topic_unfold (sanitize_topic x)).
  assert (lower (sanitize_topic x) = sanitize_topic x) as ->.
  { apply lower_from_fixed. eapply Forall_impl; [exact Hc|].
    intros c. apply topic_char_lower. }
  rewrite <- re_sub_plus_collapse, re_sub_plus_none.
  2:{ eapply Forall_impl; [exact Hc|]. intros c. apply topic_char_not_sep. }
  unfold delete_invalid. rewrite filter_id by exact Hc.
  rewrite sanitize_topic_unfold. apply strip_idempotent.
Qed.

End Sanitize.

End TopicFacts.

(** ** The two classifiers *)

Module ClassifierFacts.
Import PyStr.

Lemma WEATHER_ICONS_inj k1 k2 :
  Numeric.WEATHER_ICONS k1 = Numeric.WEATHER_ICONS k2 -> k1 = k2.
Proof. destruct k1, k2; simpl; intros E; solve [reflexivity | discriminate E]. Qed.

(** C5. The classifier of simulated readings answers with the icon of
    "clear" when the temperature is above 30 and the humidity below 50,
    else with the icon of "rain" when the humidity is above 80, else with
    the icon of "partly cloudy"; it has no icon of any other category, and
    its three icons differ. (32, 40) is clear, (20, 85) rain and (20, 60)
    partly cloudy. *)
Theorem get_weather_condition_classifies :
  (forall temp humidity : float,
     exists key,
       Numeric.get_weather_condition temp humidity = Numeric.WEATHER_ICONS key
       /\ Numeric.icon_condition key =
            (if (30 <? temp)%float && (humidity <? 50)%float then Clear
             else if (80 <? humidity)%float then Rain
             else PartlyCloudy)
       /\ ~ In (Numeric.icon_condition key)
               [Snow; Fog; Thunderstorm; Overcast; Unknown])
  /\ (forall k1 k2,
        Numeric.WEATHER_ICONS k1 = Numeric.WEATHER_ICONS k2 -> k1 = k2)
  /\ Numeric.get_weather_condition 32 40 = Numeric.WEATHER_ICONS Numeric.sunny
  /\ Numeric.get_weather_condition 20 85 = Numeric.WEATHER_ICONS Numeric.rainy
  /\ Numeric.get_weather_condition 20 60
     = Numeric.WEATHER_ICONS Numeric.partly_cloudy.
Proof.
  split; [|split; [exact WEATHER_ICONS_inj | repeat split; reflexivity]].
  intros temp humidity. unfold Numeric.get_weather_condition.
  destruct ((30 <? temp)%float && (humidity <? 50)%float).
  - exists Numeric.sunny. repeat split. simpl. intuition discriminate.
  - destruct (80 <? humidity)%float.
    + exists Numeric.rainy. repeat split. simpl. intuition discriminate.
    + exists Numeric.partly_cloudy. repeat split. simpl. intuition discriminate.
Qed.

Lemma glyph_inj c1 c2 : TextPath.glyph c1 = TextPath.glyph c2 -> c1 = c2.
Proof. destruct c1, c2; simpl; intros E; solve [reflexivity | discriminate E]. Qed.

(** Names every keyword test of the goal, so that only booleans are left. *)
Ltac name_tests :=
  repeat match goal with
         | |- context [contains (lit ?k) ?t] =>
             generalize (contains (lit k) t); intro
         end.

Lemma condition_of_first_match (conditions : str) :
  TextPath.condition_of conditions
  = TextPath.glyph (TextPath.first_match TextPath.priority conditions).
Proof.
  unfold TextPath.condition_of, TextPath.priority, TextPath.first_match,
    TextPath.has_any, existsb.
  name_tests. rewrite !orb_false_r, !orb_assoc.
  repeat match goal with
         | |- (if ?c then _ else _) = _ => destruct c; [reflexivity|]
         end.
  reflexivity.
Qed.

End ClassifierFacts.

(** ** The caching client *)

Module ServiceFacts.
Import PyStr WeatherService.

(** *** Computations that leave the state alone *)

Lemma pure_ret {A} (a : A) : pure (ret a).
Proof. exists (Return a). reflexivity. Qed.

Lemma pure_raise {A} e : pure (@raise A e).
Proof. exists (Raise e). reflexivity. Qed.

Lemma pure_bind {A B} (c : M A) (k : A -> M B) :
  pure c -> (forall a, pure (k a)) -> pure (bind c k).
Proof.
  intros [x Hx] Hk. destruct x as [a|e].
  - destruct (Hk a) as [y Hy]. exists y. intros s. unfold bind.
    rewrite Hx. apply Hy.
  - exists (Raise e). intros s. unfold bind. rewrite Hx. reflexivity.
Qed.

Lemma pure_getitem obj key : pure (getitem obj key).
Proof.
  destruct obj; simpl; try apply pure_raise.
  destruct (dict_get (lit key) fields); [apply pure_ret | apply pure_raise].
Qed.

Create HintDb pure.
#[local] Hint Resolve pure_ret pure_raise pure_getitem : pure.

Section Service.
Context `{Builtins}.

Lemma pure_py_round1 x : pure (py_round1 x).
Proof. destruct x; simpl; auto with pure. Qed.

Lemma pure_py_mul x k : pure (py_mul x k).
Proof.
  destruct x; simpl; auto with pure.
  destruct (float_of_int z); auto with pure.
Qed.

Lemma pure_py_lower x : pure (py_lower x).
Proof. destruct x; simpl; auto with pure. Qed.

Lemma pure_convert raw : pure (convert raw).
Proof.
  unfold convert.
  repeat (apply pure_bind;
          [first [apply pure_getitem | apply pure_py_round1
                 | apply pure_py_mul | apply pure_py_lower] | intros ?]).
  apply pure_ret.
Qed.

(** *** The steps of [get_weather] *)

Lemma check_cache_run city s :
  check_cache city s =
  match _cache s !! city with
  | Some (timestamp, data) =>
      (Return (if (clock s (clock_reads s) - timestamp <? CACHE_DURATION)%float
               then Fresh data else Miss (Some data)), tick s)
  | None => (Return (Miss None), s)
  end.
Proof.
  unfold check_cache, bind, gets. simpl.
  destruct (_cache s !! city) as [[timestamp data]|]; [|reflexivity].
  unfold time_time. fold (tick s).
  destruct (clock s (clock_reads s) - timestamp <? CACHE_DURATION)%float;
    reflexivity.
Qed.

Lemma try_request_run city u cached_data s :
  try_request city u cached_data s =
  match answer s city with
  | Unreachable => (Raise ConnectionError, asked city s)
  | Response status_code body =>
      if is_error status_code then
        match (status_code =? 429)%Z && u, cached_data with
        | true, Some data => (Return (inl data), asked city s)
        | _, _ => (Raise (HTTPError status_code), asked city s)
        end
      else (Return (inr (status_code, body)), asked city s)
  end.
Proof.
  unfold try_request, try_except, bind, requests_get, answer, raise_for_status,
    is_error.
  fold (asked city s).
  destruct (server s (length (requests s)) city) as [|status_code body];
    [reflexivity|].
  simpl. destruct ((400 <=? status_code)%Z && (status_code <? 600)%Z); simpl;
    [|reflexivity].
  destruct ((status_code =? 429)%Z && u), cached_data; reflexivity.
Qed.

(** The part of [get_weather] behind a response that is no error. *)
Lemma store_run city response s :
  (let* raw := response_json response in
   let* data := convert raw in
   let* now := time_time in
   let* _ := modify (fun s => set_cache (<[city := (now, data)]> (_cache s)) s) in
   ret data) s =
  match snd response with
  | None => (Raise JSONDecodeError, s)
  | Some raw =>
      match fst (convert raw s) with
      | Return data =>
          (Return data,
           set_cache (<[city := (clock s (clock_reads s), data)]> (_cache s))
                     (tick s))
      | Raise e => (Raise e, s)
      end
  end.
Proof.
  unfold bind at 1. unfold response_json.
  destruct (snd response) as [raw|]; [|reflexivity].
  unfold ret at 1. unfold bind at 1.
  destruct (pure_convert raw) as [x Hx]. rewrite !Hx. simpl.
  destruct x as [data|e]; reflexivity.
Qed.

Lemma get_weather_fresh city u s timestamp data :
  _cache s !! city = Some (timestamp, data) ->
  (clock s (clock_reads s) - timestamp <? CACHE_DURATION)%float = true ->
  get_weather city u s = (Return data, tick s).
Proof.
  intros Hc Hf. unfold get_weather. unfold bind at 1.
  rewrite check_cache_run, Hc, Hf. reflexivity.
Qed.

Lemma get_weather_miss city u s :
  fresh_entry s city = false ->
  get_weather city u s =
  let s1 := asked city (after_check s city) in
  match answer s city with
  | Unreachable => (Raise ConnectionError, s1)
  | Response status_code body =>
      if is_error status_code then
        match (status_code =? 429)%Z && u, prior_entry s city with
        | true, Some data => (Return data, s1)
        | _, _ => (Raise (HTTPError status_code), s1)
        end
      else
        match body with
        | None => (Raise JSONDecodeError, s1)
        | Some raw =>
            match fst (convert raw s) with
            | Return data =>
                (Return data,
                 set_cache (<[city := (clock s (clock_reads s1), data)]> (_cache s))
                           (tick s1))
            | Raise e => (Raise e, s1)
            end
        end
  end.
Proof.
  intros Hf. unfold get_weather. unfold bind at 1. rewrite check_cache_run.
  unfold fresh_entry, prior_entry, after_check in *.
  assert (forall cached_data s0,
            answer s0 city = answer s city -> _cache s0 = _cache s ->
            clock s0 = clock s ->
            (let* fetched := try_request city u cached_data in
             match fetched with
             | inl data => ret data
             | inr response =>
                 let* raw := response_json response in
                 let* data := convert raw in
                 let* now := time_time in
                 let* _ := modify (fun s => set_cache (<[city := (now, data)]> (_cache s)) s) in
                 ret data
             end) s0 =
            match answer s city with
            | Unreachable => (Raise ConnectionError, asked city s0)
            | Response status_code body =>
                if is_error status_code then
                  match (status_code =? 429)%Z && u, cached_data with
                  | true, Some data => (Return data, asked city s0)
                  | _, _ => (Raise (HTTPError status_code), asked city s0)
                  end
                else
                  match body with
                  | None => (Raise JSONDecodeError, asked city s0)
                  | Some raw =>
                      match fst (convert raw s) with
                      | Return data =>
                          (Return data,
                           set_cache (<[city := (clock s (clock_reads (asked city s0)), data)]> (_cache s))
                                     (tick (asked city s0)))
                      | Raise e => (Raise e, asked city s0)
                      end
                  end
            end) as Hmiss.
  { intros cached_data s0 Ha Hcache Hclock. unfold bind at 1.
    rewrite try_request_run, Ha.
    destruct (answer s city) as [|status_code body]; [reflexivity|].
    destruct (is_error status_code).
    - destruct ((status_code =? 429)%Z && u), cached_data; reflexivity.
    - rewrite store_run. simpl snd.
      destruct body as [raw|]; [|reflexivity].
      destruct (pure_convert raw) as [x Hx]. rewrite !Hx. simpl fst.
      destruct x as [data|e]; [|reflexivity].
      simpl. rewrite Hcache, Hclock. reflexivity. }
  destruct (_cache s !! city) as [[timestamp data]|] eqn:Hc.
  - rewrite Hf. apply Hmiss; reflexivity.
  - apply Hmiss; reflexivity.
Qed.

(** Whatever a call returns is what the cache then holds for the city. *)
Lemma get_weather_returns_entry city u s data s1 :
  get_weather city u s = (Return data, s1) ->
  exists timestamp,
    _cache s1 !! city = Some (timestamp, data)
    /\ (_cache s1 = _cache s
        \/ (timestamp = clock s1 (pred (clock_reads s1))
            /\ requests s1 = requests s ++ [city])).
Proof.
  destruct (fresh_entry s city) eqn:Hf.
  - unfold fresh_entry in Hf.
    destruct (_cache s !! city) as [[timestamp d]|] eqn:Hc; [|discriminate].
    rewrite (get_weather_fresh _ _ _ _ _ Hc Hf). intros [= <- <-].
    exists timestamp. split; [exact Hc | left; reflexivity].
  - rewrite (get_weather_miss _ _ _ Hf). cbv zeta.
    destruct (answer s city) as [|status_code body]; [discriminate|].
    destruct (is_error status_code).
    + unfold prior_entry, after_check.
      destruct (_cache s !! city) as [[timestamp d]|] eqn:Hc;
        destruct ((status_code =? 429)%Z && u); try discriminate.
      intros [= <- <-]. exists timestamp. split; [exact Hc | left; reflexivity].
    + destruct body as [raw|]; [|discriminate].
      destruct (fst (convert raw s)) as [d|e]; [|discriminate].
      intros [= <- <-]. eexists. split.
      * simpl. apply lookup_insert_eq.
      * right. unfold after_check.
        destruct (_cache s !! city); split; reflexivity.
Qed.

(** C1. When a call for a city has returned a reading, the cache holds that
    reading for the city, dated with the clock reading the call took on
    storing it if it fetched it; and as long as that entry stands, a call
    that reads the clock less than 600 seconds past the date of the entry
    returns the same reading and sends no request, while a call that reads
    the clock 600 seconds or more past it sends a new request. *)
Theorem cached_reading_served_within_ttl city u v s data s1 :
  get_weather city u s = (Return data, s1) ->
  exists timestamp,
    _cache s1 !! city = Some (timestamp, data)
    /\ (_cache s1 = _cache s
        \/ (timestamp = clock s1 (pred (clock_reads s1))
            /\ requests s1 = requests s ++ [city]))
    /\ forall s2,
         _cache s2 !! city = Some (timestamp, data) ->
         ((clock s2 (clock_reads s2) - timestamp <? 600)%float = true ->
          fst (get_weather city v s2) = Return data
          /\ requests (snd (get_weather city v s2)) = requests s2
          /\ _cache (snd (get_weather city v s2)) = _cache s2)
         /\ ((clock s2 (clock_reads s2) - timestamp <? 600)%float = false ->
             requests (snd (get_weather city v s2)) = requests s2 ++ [city]).
Proof.
  intros Hcall.
  destruct (get_weather_returns_entry _ _ _ _ _ Hcall) as [timestamp [Hc Hts]].
  exists timestamp. split; [exact Hc|]. split; [exact Hts|].
  intros s2 Hc2. split; intros Hage.
  - rewrite (get_weather_fresh _ _ _ _ _ Hc2 Hage). repeat split.
  - assert (fresh_entry s2 city = false) as Hf.
    { unfold fresh_entry. rewrite Hc2. exact Hage. }
    rewrite (get_weather_miss _ _ _ Hf). cbv zeta.
    assert (requests (asked city (after_check s2 city)) = requests s2 ++ [city])
      as Hreq.
    { unfold after_check. rewrite Hc2. reflexivity. }
    destruct (answer s2 city) as [|status_code body]; [exact Hreq|].
    destruct (is_error status_code).
    + destruct ((status_code =? 429)%Z && v), (prior_entry s2 city); exact Hreq.
    + destruct body as [raw|]; [|exact Hreq].
      destruct (fst (convert raw s2)); exact Hreq.
Qed.

(** C2. Of a call that has to ask the provider: a 429 answer is met with
    the reading of the prior cache entry, whatever its age, if there is one;
    a 429 answer without a prior entry, any other error status, a request
    that does not get through, a body that is no JSON and a body the
    conversion fails on all raise, prior entry or not. No failure changes
    the cache. *)
Theorem stale_fallback_on_429_only city s :
  fresh_entry s city = false ->
  (forall body data,
     answer s city = Response 429 body -> prior_entry s city = Some data ->
     fst (get_weather city true s) = Return data)
  /\ (forall body,
        answer s city = Response 429 body -> prior_entry s city = None ->
        fst (get_weather city true s) = Raise (HTTPError 429))
  /\ (forall status_code body,
        answer s city = Response status_code body ->
        is_error status_code = true -> status_code <> 429%Z ->
        fst (get_weather city true s) = Raise (HTTPError status_code))
  /\ (answer s city = Unreachable ->
      fst (get_weather city true s) = Raise ConnectionError)
  /\ (forall status_code,
        answer s city = Response status_code None ->
        is_error status_code = false ->
        fst (get_weather city true s) = Raise JSONDecodeError)
  /\ (forall status_code raw e,
        answer s city = Response status_code (Some raw) ->
        is_error status_code = false -> fst (convert raw s) = Raise e ->
        fst (get_weather city true s) = Raise e)
  /\ (forall e, fst (get_weather city true s) = Raise e ->
        _cache (snd (get_weather city true s)) = _cache s).
Proof.
  intros Hf. rewrite (get_weather_miss _ _ _ Hf). cbv zeta.
  repeat split.
  - intros body data -> ->. reflexivity.
  - intros body -> ->. reflexivity.
  - intros status_code body -> -> Hne.
    apply Z.eqb_neq in Hne. rewrite Hne. reflexivity.
  - intros ->. reflexivity.
  - intros status_code -> ->. reflexivity.
  - intros status_code raw e -> -> ->. reflexivity.
  - intros e.
    assert (_cache (asked city (after_check s city)) = _cache s) as Hsame.
    { unfold after_check. destruct (_cache s !! city); reflexivity. }
    destruct (answer s city) as [|status_code body]; [intros _; exact Hsame|].
    destruct (is_error status_code).
    + destruct ((status_code =? 429)%Z && true), (prior_entry s city);
        intros; solve [exact Hsame | discriminate].
    + destruct body as [raw|]; [|intros _; exact Hsame].
      destruct (fst (convert raw s)); [discriminate | intros _; exact Hsame].
Qed.

(** The reading built from the four values of a well-formed body. *)
Lemma convert_well_formed fields current temp hum windspeed text s :
  dict_get (lit "currentConditions") fields = Some (JObject current) ->
  dict_get (lit "temp") current = Some (JNumber temp) ->
  dict_get (lit "humidity") current = Some (JNumber hum) ->
  dict_get (lit "windspeed") current = Some (JNumber windspeed) ->
  dict_get (lit "conditions") current = Some (JString text) ->
  convert (JObject fields) s =
  (Return (mkReading (PyFloat (round1 temp)) (PyFloat (round1 hum))
                     (PyFloat (round1 (windspeed * 1.60934)%float))
                     (TextPath.condition_of (lower text))), s).
Proof.
  intros Hcur Htemp Hhum Hwind Htext.
  unfold convert, bind, getitem. rewrite Hcur. simpl.
  rewrite Htemp. simpl. rewrite Hhum. simpl. rewrite Hwind. simpl.
  rewrite Htext. reflexivity.
Qed.

(** C8. A call that has to ask the provider and gets a body with the
    current conditions returns the reading made of the temperature rounded
    to one decimal, the humidity rounded to one decimal, the wind speed
    times 1.60934 rounded to one decimal and the category the text path
    gives the conditions, and it sets the cache entry of the city to that
    reading, dated with the clock reading it takes then, in place of any
    prior entry. *)
Theorem fetched_reading_and_cache_entry
    city u s status_code fields current temp hum windspeed text :
  fresh_entry s city = false ->
  answer s city = Response status_code (Some (JObject fields)) ->
  is_error status_code = false ->
  dict_get (lit "currentConditions") fields = Some (JObject current) ->
  dict_get (lit "temp") current = Some (JNumber temp) ->
  dict_get (lit "humidity") current = Some (JNumber hum) ->
  dict_get (lit "windspeed") current = Some (JNumber windspeed) ->
  dict_get (lit "conditions") current = Some (JString text) ->
  let data :=
    mkReading (PyFloat (round1 temp)) (PyFloat (round1 hum))
              (PyFloat (round1 (windspeed * 1.60934)%float))
              (TextPath.glyph (TextPath.classify_text text)) in
  let s1 := snd (get_weather city u s) in
  fst (get_weather city u s) = Return data
  /\ _cache s1
     = <[city := (clock s (pred (clock_reads s1)), data)]> (_cache s)
  /\ _cache s1 !! city = Some (clock s (pred (clock_reads s1)), data).
Proof.
  intros Hf Ha Herr Hcur Htemp Hhum Hwind Htext data s1. subst s1.
  rewrite (get_weather_miss _ _ _ Hf). cbv zeta. rewrite Ha, Herr.
  rewrite (convert_well_formed _ _ _ _ _ _ _ Hcur Htemp Hhum Hwind Htext).
  rewrite ClassifierFacts.condition_of_first_match.
  fold (TextPath.classify_text text). fold data. simpl.
  repeat split. apply lookup_insert_eq.
Qed.

(** [round(x, 1)] and [x * k], by the number that [x] is. *)
Lemma py_round1_run x s :
  py_round1 x s =
  match number_value x with
  | Some n => (Return (round_num n), s)
  | None => (Raise TypeError, s)
  end.
Proof. destruct x; reflexivity. Qed.

Lemma py_mul_run x k s :
  py_mul x k s =
  match number_value x with
  | Some n =>
      match as_float n with
      | Some v => (Return (JNumber (v * k)%float), s)
      | None => (Raise OverflowError, s)
      end
  | None => (Raise TypeError, s)
  end.
Proof.
  destruct x as [|[|]| | | | |]; try reflexivity.
  simpl. destruct (float_of_int z); reflexivity.
Qed.

(** The conversion, step by step. *)
Lemma convert_run raw s :
  convert raw s =
  match raw with
  | JObject fields =>
      match dict_get (lit "currentConditions") fields with
      | None => (Raise (KeyError (lit "currentConditions")), s)
      | Some (JObject current) =>
          match dict_get (lit "temp") current with
          | None => (Raise (KeyError (lit "temp")), s)
          | Some temp =>
              match number_value temp with
              | None => (Raise TypeError, s)
              | Some t =>
                  match dict_get (lit "humidity") current with
                  | None => (Raise (KeyError (lit "humidity")), s)
                  | Some hum =>
                      match number_value hum with
                      | None => (Raise TypeError, s)
                      | Some h =>
                          match dict_get (lit "windspeed") current with
                          | None => (Raise (KeyError (lit "windspeed")), s)
                          | Some windspeed =>
                              match number_value windspeed with
                              | None => (Raise TypeError, s)
                              | Some w =>
                                  match as_float w with
                                  | None => (Raise OverflowError, s)
                                  | Some v =>
                                      match dict_get (lit "conditions") current with
                                      | None =>
                                          (Raise (KeyError (lit "conditions")), s)
                                      | Some (JString text) =>
                                          (Return
                                             (mkReading (round_num t) (round_num h)
                                                (PyFloat (round1 (v * 1.60934)%float))
                                                (TextPath.condition_of (lower text))),
                                           s)
                                      | Some _ => (Raise AttributeError, s)
                                      end
                                  end
                              end
                          end
                      end
                  end
              end
          end
      | Some _ => (Raise TypeError, s)
      end
  | _ => (Raise TypeError, s)
  end.
Proof.
  unfold convert. unfold bind at 1. unfold getitem at 1.
  destruct raw as [| | | | | |fields]; try reflexivity.
  destruct (dict_get (lit "currentConditions") fields) as [cur|];
    [|reflexivity].
  unfold ret at 1. unfold bind at 1. unfold getitem at 1.
  destruct cur as [| | | | | |current]; try reflexivity.
  destruct (dict_get (lit "temp") current) as [temp|]; [|reflexivity].
  unfold ret at 1. unfold bind at 1. rewrite py_round1_run.
  destruct (number_value temp) as [t|]; [|reflexivity].
  unfold bind at 1. unfold getitem at 1.
  destruct (dict_get (lit "humidity") current) as [hum|]; [|reflexivity].
  unfold ret at 1. unfold bind at 1. rewrite py_round1_run.
  destruct (number_value hum) as [h|]; [|reflexivity].
  unfold bind at 1. unfold getitem at 1.
  destruct (dict_get (lit "windspeed") current) as [windspeed|]; [|reflexivity].
  unfold ret at 1. unfold bind at 1. rewrite py_mul_run.
  destruct (number_value windspeed) as [w|]; [|reflexivity].
  destruct (as_float w) as [v|]; [|reflexivity].
  unfold bind at 1. rewrite py_round1_run. cbn [number_value round_num].
  unfold bind at 1. unfold getitem at 1.
  destruct (dict_get (lit "conditions") current) as [text|]; [|reflexivity].
  unfold ret at 1. unfold bind at 1.
  destruct text; reflexivity.
Qed.

(** What a conversion that returns was given, and what it made of it. *)
Lemma convert_returns raw s data :
  fst (convert raw s) = Return data ->
  exists fields current temp hum windspeed text t h w v,
    raw = JObject fields
    /\ dict_get (lit "currentConditions") fields = Some (JObject current)
    /\ dict_get (lit "temp") current = Some temp
    /\ dict_get (lit "humidity") current = Some hum
    /\ dict_get (lit "windspeed") current = Some windspeed
    /\ dict_get (lit "conditions") current = Some (JString text)
    /\ number_value temp = Some t /\ number_value hum = Some h
    /\ number_value windspeed = Some w /\ as_float w = Some v
    /\ data = mkReading (round_num t) (round_num h)
                (PyFloat (round1 (v * 1.60934)%float))
                (TextPath.condition_of (lower text)).
Proof.
  rewrite convert_run.
  destruct raw as [| | | | | |fields]; try discriminate.
  destruct (dict_get (lit "currentConditions") fields)
    as [[| | | | | |current]|] eqn:Hcur; try discriminate.
  destruct (dict_get (lit "temp") current) as [temp|] eqn:Htemp;
    [|discriminate].
  destruct (number_value temp) as [t|] eqn:Ht; [|discriminate].
  destruct (dict_get (lit "humidity") current) as [hum|] eqn:Hhum;
    [|discriminate].
  destruct (number_value hum) as [h|] eqn:Hh; [|discriminate].
  destruct (dict_get (lit "windspeed") current) as [windspeed|] eqn:Hwind;
    [|discriminate].
  destruct (number_value windspeed) as [w|] eqn:Hw; [|discriminate].
  destruct (as_float w) as [v|] eqn:Hv; [|discriminate].
  destruct (dict_get (lit "conditions") current)
    as [[| | | |text| |]|] eqn:Htext; try discriminate.
  intros [= <-]. exists fields, current, temp, hum, windspeed, text, t, h, w, v.
  repeat split; assumption.
Qed.

(** C4. The condition of every reading [get_weather] makes is the string
    of the category that the classifier of the specification gives the
    provider's text: the text is lower-cased and the first category, in the
    order thunderstorm, rain, snow, fog, clear, partly cloudy, overcast,
    whose keywords it contains wins, "unknown" if none does. This holds of
    the conversion of any body, and so of any call that fetches; each
    category has a string of its own. A body that says "Thunderstorms
    likely" is read as a thunderstorm and one that says "Partly cloudy with
    a chance of rain" as rain. *)
Theorem text_classifier_priority :
  (forall raw s data,
     fst (convert raw s) = Return data ->
     exists fields current text,
       raw = JObject fields
       /\ dict_get (lit "currentConditions") fields = Some (JObject current)
       /\ dict_get (lit "conditions") current = Some (JString text)
       /\ condition data = TextPath.glyph (TextPath.classify_text text))
  /\ (forall city u s status_code raw data,
        fresh_entry s city = false ->
        answer s city = Response status_code (Some raw) ->
        is_error status_code = false ->
        fst (get_weather city u s) = Return data ->
        exists fields current text,
          raw = JObject fields
          /\ dict_get (lit "currentConditions") fields = Some (JObject current)
          /\ dict_get (lit "conditions") current = Some (JString text)
          /\ condition data = TextPath.glyph (TextPath.classify_text text))
  /\ (forall c1 c2, TextPath.glyph c1 = TextPath.glyph c2 -> c1 = c2)
  /\ (forall city u s temp hum windspeed,
        fresh_entry s city = false ->
        answer s city
        = Response 200 (Some (Example.body temp hum windspeed
                                "Thunderstorms likely")) ->
        exists data,
          fst (get_weather city u s) = Return data
          /\ condition data = TextPath.glyph Thunderstorm)
  /\ (forall city u s temp hum windspeed,
        fresh_entry s city = false ->
        answer s city
        = Response 200 (Some (Example.body temp hum windspeed
                                "Partly cloudy with a chance of rain")) ->
        exists data,
          fst (get_weather city u s) = Return data
          /\ condition data = TextPath.glyph Rain).
Proof.
  assert (forall raw s data,
            fst (convert raw s) = Return data ->
            exists fields current text,
              raw = JObject fields
              /\ dict_get (lit "currentConditions") fields
                 = Some (JObject current)
              /\ dict_get (lit "conditions") current = Some (JString text)
              /\ condition data = TextPath.glyph (TextPath.classify_text text))
    as Hconvert.
  { intros raw s data Hr.
    destruct (convert_returns raw s data Hr)
      as (fields & current & temp & hum & windspeed & text & t & h & w & v
          & -> & Hcur & _ & _ & _ & Htext & _ & _ & _ & _ & ->).
    exists fields, current, text. repeat split; try assumption.
    apply ClassifierFacts.condition_of_first_match. }
  assert (forall city u s temp hum windspeed text,
            fresh_entry s city = false ->
            answer s city
            = Response 200 (Some (Example.body temp hum windspeed text)) ->
            exists data,
              fst (get_weather city u s) = Return data
              /\ condition data = TextPath.condition_of (lower (lit text)))
    as Hbody.
  { intros city u s temp hum windspeed text Hf Ha.
    rewrite (get_weather_miss _ _ _ Hf). cbv zeta. rewrite Ha.
    unfold Example.body.
    match goal with |- context [convert (JObject ?fields) s] =>
      rewrite (convert_well_formed fields
                 [ (lit "temp", JNumber temp);
                   (lit "humidity", JNumber hum);
                   (lit "windspeed", JNumber windspeed);
                   (lit "conditions", JString (lit text)) ]
                 temp hum windspeed (lit text) s
                 eq_refl eq_refl eq_refl eq_refl eq_refl)
    end.
    eexists. split; reflexivity. }
  split; [exact Hconvert|]. split; [|split; [exact ClassifierFacts.glyph_inj|]].
  - intros city u s status_code raw data Hf Ha Herr.
    rewrite (get_weather_miss _ _ _ Hf). cbv zeta. rewrite Ha, Herr.
    destruct (fst (convert raw s)) as [d|e] eqn:Hc; [|discriminate].
    intros [= <-]. apply (Hconvert raw s d Hc).
  - split; intros city u s temp hum windspeed Hf Ha;
      destruct (Hbody city u s temp hum windspeed _ Hf Ha) as (data & Hr & Hc);
      exists data; (split; [exact Hr|]); rewrite Hc; vm_compute; reflexivity.
Qed.

End Service.

End ServiceFacts.

(** ** The polling loop *)

Module AppFacts.
Import PyStr WeatherService WeatherApp ServiceFacts.

Lemma deque_append_length {A} maxlen (x : A) d :
  (length d <= maxlen)%nat -> (length (deque_append maxlen x d) <= maxlen)%nat.
Proof.
  intros Hd. unfold deque_append. cbv zeta.
  destruct (Nat.ltb_spec maxlen (length (d ++ [x]))) as [Hlt|Hge]; [|exact Hge].
  rewrite length_drop, length_app. simpl. lia.
Qed.

Lemma deque_append_full {A} maxlen (x : A) d :
  (0 < maxlen)%nat -> length d = maxlen ->
  deque_append maxlen x d = drop 1 d ++ [x].
Proof.
  intros Hpos Hd. unfold deque_append. cbv zeta.
  destruct (Nat.ltb_spec maxlen (length (d ++ [x]))) as [Hlt|Hge].
  - destruct d; [simpl in *; lia | reflexivity].
  - rewrite length_app in Hge. simpl in Hge. lia.
Qed.

Lemma deque_append_room {A} maxlen (x : A) d :
  (length d < maxlen)%nat -> deque_append maxlen x d = d ++ [x].
Proof.
  intros Hd. unfold deque_append. cbv zeta.
  destruct (Nat.ltb_spec maxlen (length (d ++ [x]))) as [Hlt|Hge]; [|reflexivity].
  rewrite length_app in Hlt. simpl in Hlt. lia.
Qed.

Lemma deque_append_last {A} maxlen (x : A) d :
  (1 <= maxlen)%nat -> last (deque_append maxlen x d) = Some x.
Proof.
  intros Hm. unfold deque_append. cbv zeta.
  destruct (Nat.ltb_spec maxlen (length (d ++ [x]))) as [Hlt|Hge].
  - destruct d as [|a d]; [simpl in Hlt; lia|].
    simpl. rewrite drop_0. apply last_snoc.
  - apply last_snoc.
Qed.

(** [for_each] keeps what every round of the loop keeps. *)
Lemma for_each_invariant {A} (P : State -> Prop) (body : A -> M unit) l :
  (forall x s, P s -> P (snd (body x s))) ->
  forall s, P s -> P (snd (for_each l body s)).
Proof.
  intros Hbody. induction l as [|x l IH]; intros s Hs; simpl; [exact Hs|].
  unfold bind. specialize (Hbody x s Hs).
  destruct (body x s) as [[[]|e] s']; simpl in *; [apply IH|]; exact Hbody.
Qed.

(** A loop whose rounds do not raise runs them all, in order. *)
Lemma for_each_run {A} (P : State -> Prop) (body : A -> M unit) l :
  (forall x s, x ∈ l -> P s ->
     fst (body x s) = Return tt /\ P (snd (body x s))) ->
  forall s, P s ->
    for_each l body s = (Return tt, foldl (fun s x => snd (body x s)) s l).
Proof.
  induction l as [|x l IH]; intros Hbody s Hs; simpl; [reflexivity|].
  unfold bind. destruct (Hbody x s) as [Hr Hp]; [left | exact Hs |].
  destruct (body x s) as [r s']; simpl in *. subst r.
  apply IH; [|exact Hp]. intros y t Hy. apply Hbody. right. exact Hy.
Qed.


Section App.
Context `{Builtins}.

Lemma get_weather_same_app city u s : same_app s (snd (get_weather city u s)).
Proof.
  destruct (fresh_entry s city) eqn:Hf.
  - unfold fresh_entry in Hf.
    destruct (_cache s !! city) as [[timestamp d]|] eqn:Hc; [|discriminate].
    rewrite (get_weather_fresh _ _ _ _ _ Hc Hf). repeat split.
  - rewrite (get_weather_miss _ _ _ Hf). cbv zeta.
    assert (same_app s (asked city (after_check s city))) as Hsame.
    { unfold after_check. destruct (_cache s !! city); repeat split. }
    destruct (answer s city) as [|status_code body]; [exact Hsame|].
    destruct (is_error status_code).
    + destruct ((status_code =? 429)%Z && u), (prior_entry s city); exact Hsame.
    + destruct body as [raw|]; [|exact Hsame].
      destruct (fst (convert raw s)); [|exact Hsame].
      unfold after_check. destruct (_cache s !! city); repeat split.
Qed.

Lemma _get_weather_data_run city s :
  _get_weather_data city s =
  match get_weather city true s with
  | (Return data, s1) => (Return data, s1)
  | (Raise e, s1) =>
      if is_RequestException e then (Return dummy_data, s1) else (Raise e, s1)
  end.
Proof.
  unfold _get_weather_data, try_except.
  destruct (get_weather city true s) as [[data|e] s1]; [reflexivity|].
  destruct (is_RequestException e); reflexivity.
Qed.

Lemma _get_weather_data_same_app city s :
  same_app s (snd (_get_weather_data city s)).
Proof.
  rewrite _get_weather_data_run. pose proof (get_weather_same_app city true s) as Hs.
  destruct (get_weather city true s) as [[data|e] s1]; [exact Hs|].
  destruct (is_RequestException e); exact Hs.
Qed.

(** [_append_data]: the clock is read and the variation drawn before the
    sum is made. *)
Lemma _append_data_run temp s :
  _append_data temp s =
  match as_float temp with
  | Some x =>
      (Return tt,
       set_history
         (deque_append DEFAULT_HISTORY (display_temp x s) (temp_history s))
         (deque_append DEFAULT_HISTORY (clock s (clock_reads s)) (time_history s))
         (set_draws (S (draws s)) (tick s)))
  | None => (Raise OverflowError, set_draws (S (draws s)) (tick s))
  end.
Proof.
  unfold _append_data, bind, time_time, random_uniform, py_add. cbv iota beta.
  cbn [draws uniform set_clock_reads]. destruct (as_float temp); reflexivity.
Qed.

(** [_append_data] leaves the rest of the application as it is. *)
Lemma _append_data_keeps temp s :
  let s' := snd (_append_data temp s) in
  cities s' = cities s /\ graphed_city s' = graphed_city s
  /\ city_data s' = city_data s /\ mqtt s' = mqtt s
  /\ published s' = published s
  /\ (as_float temp = None ->
      temp_history s' = temp_history s /\ time_history s' = time_history s).
Proof.
  cbv zeta. rewrite _append_data_run.
  destruct (as_float temp); repeat split; discriminate.
Qed.

Lemma _update_graph_run s :
  _update_graph s =
  match time_history s with
  | [] => (Return tt, s)
  | _ :: _ =>
      if drawable (default 0%float (last (temp_history s)))
      then (Return tt, s) else (Raise ValueError, s)
  end.
Proof.
  unfold _update_graph, bind, gets, drawable. cbv iota beta.
  destruct (time_history s); [reflexivity|]. cbv iota beta zeta.
  match goal with |- context [if ?c then _ else _] => destruct c end;
    reflexivity.
Qed.

(** "Update graph data": the point is added, if it can be made, and the
    chart drawn, if its limits are finite. *)
Lemma chart_run temp s :
  (let* _ := _append_data temp in _update_graph) s =
  (match as_float temp with
   | Some x => if drawable (display_temp x s) then Return tt else Raise ValueError
   | None => Raise OverflowError
   end, snd (_append_data temp s)).
Proof.
  unfold bind. rewrite _append_data_run.
  destruct (as_float temp) as [x|]; [|reflexivity].
  rewrite _update_graph_run. unfold set_history. cbn [time_history temp_history snd].
  rewrite deque_append_last by (unfold DEFAULT_HISTORY; lia).
  pose proof (deque_append_last DEFAULT_HISTORY (clock s (clock_reads s))
                (time_history s)) as Hlast.
  destruct (deque_append DEFAULT_HISTORY (clock s (clock_reads s))
              (time_history s)).
  - discriminate Hlast. unfold DEFAULT_HISTORY. lia.
  - cbn [default from_option id].
    destruct (drawable (display_temp x s)); reflexivity.
Qed.

(** What [publish] does, case by case. *)
Lemma publish_effect city data s :
  let s' := snd (publish city data s) in
  fst (publish city data s) = Return tt
  /\ mqtt s' = mqtt s /\ temp_history s' = temp_history s
  /\ time_history s' = time_history s /\ city_data s' = city_data s
  /\ graphed_city s' = graphed_city s /\ cities s' = cities s
  /\ published s'
     = published s ++ sent city data (clock s (clock_reads s)) s.
Proof.
  cbv zeta. unfold sent, publish, bind, gets. cbv beta iota.
  destruct (mqtt s) as [[|]|] eqn:Hm; cbv beta iota zeta;
    (repeat split; try (exact Hm); try reflexivity);
    case_decide; try congruence; rewrite ?app_nil_r; reflexivity.
Qed.

(** A round of the loop, step by step. *)
Lemma update_city_run city s :
  update_city city s =
  match _get_weather_data city s with
  | (Raise e, s1) => (Return tt, s1)
  | (Return data, s1) =>
      match city_data s1 !! city with
      | None => (Raise (KeyError city), s1)
      | Some _ =>
          let s2 := set_city_data (<[city := row_of data]> (city_data s1)) s1 in
          if decide (city = graphed_city s2) then
            match as_float (temperature data) with
            | Some x =>
                if drawable (display_temp x s2)
                then publish city data (snd (_append_data (temperature data) s2))
                else (Raise ValueError, snd (_append_data (temperature data) s2))
            | None =>
                (Raise OverflowError, snd (_append_data (temperature data) s2))
            end
          else publish city data s2
      end
  end.
Proof.
  unfold update_city. unfold bind at 1. unfold try_except, bind at 1.
  destruct (_get_weather_data city s) as [[data|e] s1]; [|reflexivity].
  unfold ret at 1. cbv iota beta. unfold bind at 1.
  unfold update_ui, bind at 1. unfold gets at 1. cbv iota beta.
  destruct (city_data s1 !! city) as [row|]; [|reflexivity].
  unfold modify at 1. cbv iota beta zeta. unfold bind at 1, gets at 1.
  cbv iota beta. unfold bind at 1.
  destruct (decide (city = graphed_city _)); [|reflexivity].
  rewrite chart_run.
  destruct (as_float (temperature data)) as [x|]; [|reflexivity].
  destruct (drawable (display_temp x _)); reflexivity.
Qed.

(** What a round of the loop does to the rows, the chart and the messages,
    case by case. *)
Lemma update_city_effect city s :
  let s' := round_for s city in
  mqtt s' = mqtt s /\ graphed_city s' = graphed_city s /\ cities s' = cities s
  /\ match _get_weather_data city s with
     | (Raise e, s1) =>
         update_city city s = (Return tt, s1) /\ same_app s s1
     | (Return data, s1) =>
         match city_data s !! city with
         | None =>
             update_city city s = (Raise (KeyError city), s1) /\ same_app s s1
         | Some _ =>
             city_data s' = <[city := row_of data]> (city_data s)
             /\ if decide (city = graphed_city s) then
                  match as_float (temperature data) with
                  | None =>
                      fst (update_city city s) = Raise OverflowError
                      /\ temp_history s' = temp_history s
                      /\ time_history s' = time_history s
                      /\ published s' = published s
                  | Some x =>
                      temp_history s'
                      = deque_append DEFAULT_HISTORY (display_temp x s1)
                          (temp_history s)
                      /\ time_history s'
                         = deque_append DEFAULT_HISTORY (clock s1 (clock_reads s1))
                             (time_history s)
                      /\ if drawable (display_temp x s1)
                         then fst (update_city city s) = Return tt
                              /\ exists now,
                                   published s'
                                   = published s ++ sent city data now s
                         else fst (update_city city s) = Raise ValueError
                              /\ published s' = published s
                  end
                else
                  fst (update_city city s) = Return tt
                  /\ temp_history s' = temp_history s
                  /\ time_history s' = time_history s
                  /\ exists now,
                       published s' = published s ++ sent city data now s
         end
     end.
Proof.
  cbv zeta. unfold round_for. rewrite update_city_run.
  pose proof (_get_weather_data_same_app city s) as Hsame.
  destruct (_get_weather_data city s) as [[data|e] s1] eqn:Hget;
    pose proof Hsame as Hsame';
    destruct Hsame as (Hcities & Hgraphed & Hrows & Htemps & Htimes & Hmqtt & Hpub);
    cbn [snd] in Hcities, Hgraphed, Hrows, Htemps, Htimes, Hmqtt, Hpub, Hsame'.
  2: { cbn [snd fst]. repeat split; assumption. }
  rewrite <- Hrows.
  destruct (city_data s1 !! city) as [row|] eqn:Hrow.
  2: { cbn [snd fst]. repeat split; assumption. }
  cbv zeta. unfold sent. cbn [graphed_city set_city_data].
  rewrite <- Hgraphed, <- Hmqtt, <- Htemps, <- Htimes, <- Hpub, <- Hcities.
  set (s2 := set_city_data (<[city := row_of data]> (city_data s1)) s1).
  assert (display_temp_s2 : forall x, display_temp x s2 = display_temp x s1)
    by reflexivity.
  destruct (decide (city = graphed_city s1)) as [Hg|Hg].
  - pose proof (_append_data_run (temperature data) s2) as Happ.
    destruct (as_float (temperature data)) as [x|] eqn:Hx.
    + rewrite display_temp_s2.
      destruct (drawable (display_temp x s1)).
      * destruct (publish_effect city data (snd (_append_data (temperature data) s2)))
          as (P0 & P1 & P2 & P3 & P4 & P5 & P6 & P7).
        rewrite P0, P1, P2, P3, P4, P5, P6, P7, Happ. cbn [snd fst].
        repeat split. eexists. reflexivity.
      * rewrite Happ. cbn [snd fst]. repeat split.
    + rewrite Happ. cbn [snd fst]. repeat split.
  - destruct (publish_effect city data s2)
      as (P0 & P1 & P2 & P3 & P4 & P5 & P6 & P7).
    rewrite P0, P1, P2, P3, P4, P5, P6, P7. repeat split. eexists. reflexivity.
Qed.




Lemma update_city_history city s :
  history_bounded s -> history_bounded (snd (update_city city s)).
Proof.
  intros [Hb1 Hb2]. pose proof (update_city_effect city s) as He.
  cbv zeta in He. fold (round_for s city). unfold history_bounded.
  destruct (_get_weather_data city s) as [[data|e] s1].
  - destruct (city_data s !! city) as [row|].
    + destruct He as (_ & _ & _ & _ & Hchart).
      destruct (decide (city = graphed_city s)).
      * destruct (as_float (temperature data)) as [x|].
        -- destruct Hchart as (-> & -> & _).
           split; apply deque_append_length; assumption.
        -- destruct Hchart as (_ & -> & -> & _). split; assumption.
      * destruct Hchart as (_ & -> & -> & _). split; assumption.
    + destruct He as (_ & _ & _ & Hd & _ & _ & _ & Ht & Hi & _).
      unfold round_for. rewrite Hd. cbn [snd]. rewrite Ht, Hi.
      split; assumption.
  - destruct He as (_ & _ & _ & Hd & _ & _ & _ & Ht & Hi & _).
    unfold round_for. rewrite Hd. cbn [snd]. rewrite Ht, Hi. split; assumption.
Qed.

(** A round takes no city and no row away, whatever it does. *)
Lemma update_city_keeps city s :
  cities (round_for s city) = cities s
  /\ graphed_city (round_for s city) = graphed_city s
  /\ (forall c, is_Some (city_data s !! c) ->
                is_Some (city_data (round_for s city) !! c)).
Proof.
  pose proof (update_city_effect city s) as He. cbv zeta in He.
  destruct He as (_ & Hg & Hc & He). split; [exact Hc|]. split; [exact Hg|].
  destruct (_get_weather_data city s) as [[data|e] s1].
  - destruct (city_data s !! city) as [row|] eqn:Hrow.
    + destruct He as [-> _]. intros c Hc'.
      rewrite lookup_insert. case_decide; [eauto | exact Hc'].
    + destruct He as (Hd & _ & _ & Hr & _). unfold round_for. rewrite Hd.
      cbn [snd]. rewrite Hr. auto.
  - destruct He as (Hd & _ & _ & Hr & _). unfold round_for. rewrite Hd.
    cbn [snd]. rewrite Hr. auto.
Qed.






(** Every city keeps its row through a tick. *)
Lemma update_loop_rows s :
  rows_for_all s -> rows_for_all (snd (update_loop s)).
Proof.
  intros Hrows. unfold update_loop, bind, gets. cbv iota beta.
  assert (cities (snd (for_each (cities s) update_city s)) = cities s
          /\ forall c, is_Some (city_data s !! c) ->
               is_Some (city_data (snd (for_each (cities s) update_city s)) !! c))
    as [Hc Hkeep].
  { apply (for_each_invariant
             (fun t => cities t = cities s
                       /\ forall c, is_Some (city_data s !! c) ->
                                    is_Some (city_data t !! c)));
      [|split; auto].
    intros city t [Hc Hkeep].
    destruct (update_city_keeps city t) as (Hc' & _ & Hkeep').
    fold (round_for t city). rewrite Hc', Hc. auto. }
  unfold rows_for_all in *. rewrite Hc.
  eapply Forall_impl; [exact Hrows|]. intros c. apply Hkeep.
Qed.

Lemma update_loop_history s :
  history_bounded s -> history_bounded (snd (update_loop s)).
Proof.
  intros Hb. unfold update_loop, bind, gets. cbv iota beta.
  apply (for_each_invariant history_bounded); [|exact Hb].
  intros city t. apply update_city_history.
Qed.

Lemma run_ticks_history n s :
  history_bounded s -> history_bounded (run_ticks n s).
Proof.
  revert s. induction n as [|n IH]; intros s Hb; simpl; [exact Hb|].
  pose proof (update_loop_history s Hb) as Hb'.
  destruct (update_loop s) as [[[]|e] s']; [apply IH|]; exact Hb'.
Qed.

(** What [__init__] leaves: the cities with their rows, and one point in
    the chart, that of the first reading or else the default one. *)
Lemma init_effect first others mqtt_client s :
  let s' := snd (init first others mqtt_client s) in
  cities s' = first :: others /\ graphed_city s' = first
  /\ city_data s'
     = foldl (fun rows city => <[city := initial_row]> rows) ∅ (first :: others)
  /\ mqtt s' = mqtt_client /\ published s' = published s
  /\ length (temp_history s') = 1%nat /\ length (time_history s') = 1%nat.
Proof.
  cbv zeta. remember (init first others mqtt_client s) as out eqn:Eout.
  unfold init in Eout. unfold bind at 1 in Eout. unfold modify at 1 in Eout.
  cbv iota beta zeta in Eout.
  match type of Eout with context [try_except _ _ ?t] => set (s0 := t) in Eout end.
  unfold try_except, bind in Eout.
  pose proof (_get_weather_data_same_app first s0) as Hsame.
  destruct (_get_weather_data first s0) as [[data|e] s1];
    destruct Hsame as (Hc & Hg & Hr & Ht & Hi & Hm & Hp);
    cbn [snd] in Hc, Hg, Hr, Ht, Hi, Hm, Hp.
  - rewrite _append_data_run in Eout.
    destruct (as_float (temperature data)) as [x|].
    + subst out. cbn [snd]. unfold set_history.
      cbn [cities graphed_city city_data mqtt published temp_history
           time_history set_draws tick set_clock_reads].
      rewrite Hc, Hg, Hr, Ht, Hi, Hm, Hp. repeat split.
    + rewrite _append_data_run in Eout. cbn [as_float] in Eout.
      subst out. cbn [snd]. unfold set_history.
      cbn [cities graphed_city city_data mqtt published temp_history
           time_history set_draws tick set_clock_reads].
      rewrite Hc, Hg, Hr, Ht, Hi, Hm, Hp. repeat split.
  - rewrite _append_data_run in Eout. cbn [as_float] in Eout.
    subst out. cbn [snd]. unfold set_history.
    cbn [cities graphed_city city_data mqtt published temp_history
         time_history set_draws tick set_clock_reads].
    rewrite Hc, Hg, Hr, Ht, Hi, Hm, Hp. repeat split.
Qed.

Lemma init_history first others mqtt_client s :
  history_bounded (snd (init first others mqtt_client s)).
Proof.
  destruct (init_effect first others mqtt_client s)
    as (_ & _ & _ & _ & _ & Ht & Hi).
  unfold history_bounded, DEFAULT_HISTORY. rewrite Ht, Hi. lia.
Qed.

(** C9. From the start of the application on and through any number of
    ticks, the chart holds at most 60 temperatures and at most 60 times;
    and a point added to a chart that holds 60 takes the place of the
    oldest one. *)
Theorem chart_history_within_capacity first others mqtt_client s0 n :
  let s := run_ticks n (snd (init first others mqtt_client s0)) in
  (length (temp_history s) <= 60)%nat
  /\ (length (time_history s) <= 60)%nat
  /\ (forall temp t,
        length (temp_history t) = 60%nat ->
        temp_history (snd (_append_data (PyFloat temp) t))
        = drop 1 (temp_history t) ++ [display_temp temp t])
  /\ (forall temp t,
        length (time_history t) = 60%nat ->
        time_history (snd (_append_data (PyFloat temp) t))
        = drop 1 (time_history t) ++ [clock t (clock_reads t)]).
Proof.
  cbv zeta.
  destruct (run_ticks_history n _ (init_history first others mqtt_client s0))
    as [Htemps Htimes].
  split; [exact Htemps|]. split; [exact Htimes|].
  split; intros temp t Hfull; rewrite _append_data_run; simpl;
    apply deque_append_full; solve [exact Hfull | unfold DEFAULT_HISTORY; lia].
Qed.


(** [__init__] gives every city its row. *)
Lemma initial_rows (names : list str) :
  forall (rows : gmap str Row) (c : str),
    c ∈ names \/ is_Some (rows !! c) ->
    is_Some (foldl (fun rows city => <[city := initial_row]> rows) rows names
             !! c).
Proof.
  induction names as [|city names IH]; intros rows c Hc; simpl.
  - destruct Hc as [Hc|Hc]; [inversion Hc | exact Hc].
  - apply IH. destruct (decide (c = city)) as [->|Hne].
    + right. rewrite lookup_insert_eq. eauto.
    + destruct Hc as [Hc|Hc].
      * left. apply elem_of_cons in Hc. destruct Hc; [contradiction | assumption].
      * right. rewrite lookup_insert_ne by congruence. exact Hc.
Qed.

Lemma init_rows first others mqtt_client s :
  rows_for_all (snd (init first others mqtt_client s)).
Proof.
  destruct (init_effect first others mqtt_client s) as (Hc & _ & Hr & _).
  unfold rows_for_all. rewrite Hc, Hr, Forall_forall. intros c Hin.
  apply (initial_rows (first :: others)). left. exact Hin.
Qed.


End App.

End AppFacts.

(** ** The program run in the example world *)

Module Cases.
Import PyStr WeatherService WeatherApp ServiceFacts AppFacts Example.
#[local] Existing Instance runtime.

Example round_tenths_samples :
  round_tenths 0.25 = 0.2%float /\ round_tenths 0.35 = 0.3%float
  /\ round_tenths 0.75 = 0.8%float /\ round_tenths 16.0934 = 16.1%float
  /\ round_tenths (-0.01) = (-0)%float /\ round_tenths infinity = infinity.
Proof. repeat split; vm_compute; reflexivity. Qed.

Example tenths_text_samples :
  tenths_text 20 = lit "20.0" /\ tenths_text 16.1 = lit "16.1"
  /\ tenths_text (-3.5) = lit "-3.5" /\ tenths_text 0 = lit "0.0".
Proof. repeat split; vm_compute; reflexivity. Qed.

Example float_of_int_samples :
  float_of_int 12 = Some 12%float
  /\ float_of_int (2 ^ 53 + 1) = Some 9007199254740992%float
  /\ float_of_int (2 ^ 1024 - 2 ^ 970 - 1) = Some 1.7976931348623157e308%float
  /\ float_of_int (2 ^ 1024 - 2 ^ 970) = None
  /\ float_of_int (- 10 ^ 400) = None
  /\ int_text (-12) = lit "-12" /\ int_text 0 = lit "0".
Proof. repeat split; vm_compute; reflexivity. Qed.

Example rainy_reading_fetched :
  fst (get_weather london true (world provider)) = Return rainy_reading.
Proof. vm_compute. reflexivity. Qed.

(** C1 at work: London, fetched at 1000 and asked for again. *)
Lemma cached_reading_case :
  get_weather london true (world provider)
  = (Return rainy_reading, snd (get_weather london true (world provider)))
  /\ exists timestamp,
       _cache (snd (get_weather london true (world provider))) !! london
       = Some (timestamp, rainy_reading)
       /\ forall s2,
            _cache s2 !! london = Some (timestamp, rainy_reading) ->
            (clock s2 (clock_reads s2) - timestamp <? 600)%float = true ->
            fst (get_weather london true s2) = Return rainy_reading
            /\ requests (snd (get_weather london true s2)) = requests s2.
Proof.
  assert (get_weather london true (world provider)
          = (Return rainy_reading, snd (get_weather london true (world provider))))
    as Hcall by (vm_compute; reflexivity).
  split; [exact Hcall|].
  destruct (cached_reading_served_within_ttl london true true _ _ _ Hcall)
    as (timestamp & Hentry & _ & Hnext).
  exists timestamp. split; [exact Hentry|].
  intros s2 Hc Hage. destruct (Hnext s2 Hc) as [Hhit _].
  destruct (Hhit Hage) as (Hr & Hq & _). split; assumption.
Defined.

(** C2 at work: the provider is over its limit and the entry is 1000
    seconds old. *)
Lemma stale_fallback_case :
  fresh_entry stale london = false
  /\ fst (get_weather london true stale) = Return rainy_reading
  /\ fst (get_weather paris true stale) = Raise (HTTPError 429).
Proof.
  split; [reflexivity|]. split.
  - destruct (stale_fallback_on_429_only london stale eq_refl) as (Hfall & _).
    apply (Hfall None); reflexivity.
  - destruct (stale_fallback_on_429_only paris stale eq_refl) as (_ & Hnone & _).
    apply (Hnone None); reflexivity.
Defined.

(** C8 at work: London's body. *)
Lemma fetched_reading_case :
  fresh_entry (world provider) london = false
  /\ fst (get_weather london true (world provider))
     = Return (mkReading (PyFloat (round1 12.34)) (PyFloat (round1 80.26))
                 (PyFloat (round1 (10 * 1.60934)%float))
                 (TextPath.glyph
                    (TextPath.classify_text (lit "Rain, Partially cloudy"))))
  /\ exists now data,
       _cache (snd (get_weather london true (world provider))) !! london
       = Some (now, data).
Proof.
  split; [reflexivity|].
  destruct (fetched_reading_and_cache_entry london true (world provider) 200
              [ (lit "address", JString london);
                (lit "currentConditions",
                 JObject [ (lit "temp", JNumber 12.34);
                           (lit "humidity", JNumber 80.26);
                           (lit "windspeed", JNumber 10);
                           (lit "conditions",
                            JString (lit "Rain, Partially cloudy")) ]) ]
              [ (lit "temp", JNumber 12.34);
                (lit "humidity", JNumber 80.26);
                (lit "windspeed", JNumber 10);
                (lit "conditions", JString (lit "Rain, Partially cloudy")) ]
              12.34 80.26 10 (lit "Rain, Partially cloudy")
              eq_refl eq_refl eq_refl eq_refl eq_refl eq_refl eq_refl eq_refl)
    as (Hr & _ & Hentry).
  split; [exact Hr|]. eexists _, _. exact Hentry.
Defined.

(** C4 at work: the text of London's body, with its capital letters, is
    read as rain. *)
Lemma text_path_case :
  fst (get_weather london true (world provider)) = Return rainy_reading
  /\ TextPath.classify_text (lit "Rain, Partially cloudy") = Rain
  /\ condition rainy_reading
     = TextPath.glyph (TextPath.classify_text (lit "Rain, Partially cloudy")).
Proof.
  assert (fst (get_weather london true (world provider)) = Return rainy_reading)
    as Hcall by (vm_compute; reflexivity).
  split; [exact Hcall|]. split; [vm_compute; reflexivity|].
  destruct text_classifier_priority as (_ & Hfetch & _).
  destruct (Hfetch london true (world provider) 200%Z
              (body 12.34 80.26 10 "Rain, Partially cloudy") rainy_reading
              eq_refl eq_refl eq_refl Hcall)
    as (fields & current & text & Hraw & Hcur & Htext & Hcond).
  injection Hraw as <-. vm_compute in Hcur. injection Hcur as <-.
  vm_compute in Htext. injection Htext as <-. exact Hcond.
Defined.



Lemma started_cities : cities started = [london; paris; oslo].
Proof. reflexivity. Qed.


Lemma started_incomplete_cities :
  cities started_incomplete = [london; paris; oslo].
Proof. reflexivity. Qed.




(** C9 at work: a point added to a full chart. *)
Lemma full_chart_case :
  length (temp_history full_chart) = 60%nat
  /\ temp_history (snd (_append_data (PyFloat 21) full_chart))
     = replicate 59 20.5%float ++ [21.1%float].
Proof.
  split; [reflexivity|].
  destruct (chart_history_within_capacity london [] None (world provider) 0)
    as (_ & _ & Hfull & _).
  rewrite (Hfull 21%float full_chart eq_refl). vm_compute. reflexivity.
Defined.

End Cases.

(** ** The topic of a city *)

Module MqttTopicFacts.
Import PyStr PyStrFacts Topic TopicFacts MqttTopic.

Lemma strip_nil p s :
  strip p s = [] <-> Forall (fun c => p c = true) s.
Proof.
  split.
  - intros E. destruct (strip_split p s) as (pre & suf & Hs & Hp & Hq).
    rewrite E in Hs. simpl in Hs. subst s. apply Forall_app. split; assumption.
  - intros F. unfold strip, lstrip, rstrip.
    assert (drop_while p s = []) as ->.
    { induction F as [|c s Hc Hs IH]; simpl; [reflexivity|].
      rewrite Hc. exact IH. }
    reflexivity.
Qed.

Lemma alnum_not_sep c : is_alnum c = true -> is_sep c = false.
Proof.
  intros Ha. apply not_true_is_false. intros Hs.
  unfold is_alnum in Ha. to_arith. lia.
Qed.

Lemma sep_not_alnum c : is_sep c = true -> is_alnum c = false.
Proof.
  intros Hs. destruct (is_alnum c) eqn:Ha; [|reflexivity].
  rewrite (alnum_not_sep c Ha) in Hs. discriminate.
Qed.

(** Collapsing the runs neither brings in nor takes out a letter or digit. *)
Lemma re_sub_plus_alnum s :
  Forall (fun c => is_alnum c = false) (re_sub_plus is_sep (lit "_") s)
  <-> Forall (fun c => is_alnum c = false) s.
Proof.
  funelim (re_sub_plus is_sep (lit "_") s); [tauto|].
  destruct (is_sep c) eqn:Hc.
  - destruct (drop_while_split is_sep rest) as (pre & Hrest & Hpre).
    rewrite Forall_app, H by reflexivity.
    rewrite Forall_cons. rewrite Hrest at 2. rewrite Forall_app.
    assert (Forall (fun c => is_alnum c = false) pre) as Hpre'.
    { eapply Forall_impl; [exact Hpre|]. intros x. apply sep_not_alnum. }
    pose proof (sep_not_alnum c Hc) as Hc'.
    assert (Forall (fun c => is_alnum c = false) (lit "_")) as Hu
      by (repeat constructor).
    tauto.
  - rewrite !Forall_cons, H0 by reflexivity. tauto.
Qed.

Lemma filter_underscores s :
  Forall (fun c => is_underscore c = true) (delete_invalid s)
  <-> Forall (fun c => is_alnum c = false) s.
Proof.
  unfold delete_invalid.
  induction s as [|c s IH]; simpl; [split; constructor|].
  assert (is_topic_char c = is_alnum c || is_underscore c) as Ht by reflexivity.
  assert (is_alnum c = true -> is_underscore c = false) as Hau.
  { intros Ha. apply not_true_is_false. intros Hu.
    unfold is_alnum in Ha. to_arith. lia. }
  rewrite Ht. destruct (is_alnum c) eqn:Ha; simpl.
  - specialize (Hau eq_refl). rewrite !Forall_cons, IH, Hau, Ha.
    split; intros [? ?]; discriminate.
  - destruct (is_underscore c) eqn:Hu.
    + rewrite !Forall_cons, IH, Hu, Ha. tauto.
    + rewrite Forall_cons, IH, Ha. tauto.
Qed.

Section More.
Context `{Builtins}.

(** X1. A topic segment holds lowercase ASCII letters, digits and
    underscores only: the topic of a city has the one level separator of
    its prefix, no wildcard and no blank. *)
Theorem topic_of_city_is_plain (city : str) :
  Forall (fun c => 97 <= c <= 122 \/ 48 <= c <= 57 \/ c = 95)
         (sanitize_topic city)
  /\ count_occ N.eq_dec (topic_of city) 47 = 1%nat
  /\ ~ In 43 (topic_of city) /\ ~ In 35 (topic_of city)
  /\ Forall (fun c => isspace c = false) (topic_of city).
Proof.
  pose proof (sanitize_topic_chars city) as Hc.
  assert (Forall (fun c => 97 <= c <= 122 \/ 48 <= c <= 57 \/ c = 95)
                 (sanitize_topic city)) as Hr.
  { eapply Forall_impl; [exact Hc|]. intros c Ht. to_arith. lia. }
  split; [exact Hr|].
  unfold topic_of. rewrite Forall_forall in Hr.
  repeat split.
  - rewrite count_occ_app.
    assert (count_occ N.eq_dec (sanitize_topic city) 47 = 0%nat) as ->.
    { apply count_occ_not_In. intros Hin.
      apply list_elem_of_In in Hin. specialize (Hr _ Hin). lia. }
    reflexivity.
  - intros Hin. apply in_app_or in Hin. destruct Hin as [Hin|Hin].
    + vm_compute in Hin. intuition discriminate.
    + apply list_elem_of_In in Hin. specialize (Hr _ Hin). lia.
  - intros Hin. apply in_app_or in Hin. destruct Hin as [Hin|Hin].
    + vm_compute in Hin. intuition discriminate.
    + apply list_elem_of_In in Hin. specialize (Hr _ Hin). lia.
  - apply Forall_app. split; [repeat constructor|].
    eapply Forall_impl; [exact Hc|]. intros c Ht.
    apply not_true_is_false. intros Hs. to_arith. lia.
Qed.

(** X2. The topic segment of a name is empty exactly when the lower-cased
    name holds no ASCII letter and no digit. *)
Theorem sanitize_topic_empty_iff (name : str) :
  sanitize_topic name = []
  <-> Forall (fun c => is_alnum c = false) (lower name).
Proof.
  rewrite sanitize_topic_unfold, strip_nil, filter_underscores.
  rewrite <- re_sub_plus_collapse. apply re_sub_plus_alnum.
Qed.

Lemma lower_latin1_idempotent c :
  c < 256 -> lower_latin1 (lower_latin1 c) = lower_latin1 c /\ lower_latin1 c < 256.
Proof.
  intros Hc. unfold lower_latin1.
  destruct (between 65 90 c) eqn:H1.
  - assert (between 65 90 (c + 32) = false) as ->
      by (apply not_true_is_false; intros Hs; to_arith; lia).
    assert (between 192 222 (c + 32) = false) as ->
      by (apply not_true_is_false; intros Hs; to_arith; lia).
    split; [reflexivity|]. to_arith. lia.
  - destruct (between 192 222 c && negb (c =? 215)) eqn:H2.
    + assert (between 65 90 (c + 32) = false) as ->
        by (apply not_true_is_false; intros Hs; to_arith; lia).
      assert (between 192 222 (c + 32) = false) as ->
        by (apply not_true_is_false; intros Hs; to_arith; lia).
      split; [reflexivity|]. to_arith. lia.
    + rewrite H1, H2. split; [reflexivity | exact Hc].
Qed.

Lemma lower_from_latin1 s :
  Forall (fun c => c < 256) s ->
  forall before, lower_from before s = map lower_latin1 s.
Proof.
  induction 1 as [|c s Hc Hs IH]; intros before; simpl; [reflexivity|].
  apply N.ltb_lt in Hc. rewrite Hc, IH. reflexivity.
Qed.

Lemma lower_idempotent_latin1 s :
  Forall (fun c => c < 256) s -> lower (lower s) = lower s.
Proof.
  intros Hs. unfold lower. rewrite (lower_from_latin1 s Hs).
  rewrite lower_from_latin1.
  - rewrite map_map. apply map_ext_Forall.
    eapply Forall_impl; [exact Hs|]. intros c Hc.
    apply lower_latin1_idempotent, Hc.
  - apply Forall_map. eapply Forall_impl; [exact Hs|]. intros c Hc.
    apply lower_latin1_idempotent, Hc.
Qed.

(** X3. For a name within Latin-1, upper and lower case make no
    difference to the topic: the lower-cased name has the topic of the
    name, so two names with the same lower-casing share their topic. *)
Theorem sanitize_topic_ignores_case (name other : str) :
  Forall (fun c => c < 256) name ->
  sanitize_topic (lower name) = sanitize_topic name
  /\ (lower other = lower name -> sanitize_topic other = sanitize_topic name).
Proof.
  intros Hs. split.
  - unfold sanitize_topic. rewrite (lower_idempotent_latin1 name Hs). reflexivity.
  - intros E. unfold sanitize_topic. rewrite E. reflexivity.
Qed.

End More.
End MqttTopicFacts.

(** ** The service over a run of calls *)

Module ServiceRunsFacts.
Import PyStr WeatherService ServiceFacts ServiceRuns.

Section Service.
Context `{Builtins}.

(** What one call does to the world and to the cache, case by case. *)
Lemma get_weather_effect city u s :
  let s' := snd (get_weather city u s) in
  clock s' = clock s /\ server s' = server s /\ uniform s' = uniform s
  /\ draws s' = draws s
  /\ (if fresh_entry s city then requests s' = requests s
      else requests s' = requests s ++ [city])
  /\ (clock_reads s <= clock_reads s' <= clock_reads s + 2)%nat
  /\ (_cache s' = _cache s
      \/ exists data,
           fst (get_weather city u s) = Return data
           /\ (exists c, condition data = TextPath.glyph c)
           /\ (0 < clock_reads s')%nat
           /\ _cache s'
              = <[city := (clock s (pred (clock_reads s')), data)]> (_cache s)).
Proof.
  cbv zeta. destruct (fresh_entry s city) eqn:Hf.
  - pose proof Hf as Hf'. unfold fresh_entry in Hf'.
    destruct (_cache s !! city) as [[timestamp d]|] eqn:Hc; [|discriminate].
    rewrite (get_weather_fresh _ _ _ _ _ Hc Hf'). simpl.
    repeat split; try lia. left. reflexivity.
  - rewrite (get_weather_miss _ _ _ Hf). cbv zeta.
    assert (clock (after_check s city) = clock s
            /\ server (after_check s city) = server s
            /\ uniform (after_check s city) = uniform s
            /\ draws (after_check s city) = draws s
            /\ requests (after_check s city) = requests s
            /\ (clock_reads s <= clock_reads (after_check s city)
                <= clock_reads s + 1)%nat
            /\ _cache (after_check s city) = _cache s)
      as (H1 & H2 & H3 & H4 & H5 & H6 & H7).
    { unfold after_check. destruct (_cache s !! city); simpl; repeat split; lia. }
    assert (forall r : result Reading,
              let s' := snd (r, asked city (after_check s city)) in
              clock s' = clock s /\ server s' = server s
              /\ uniform s' = uniform s /\ draws s' = draws s
              /\ requests s' = requests s ++ [city]
              /\ (clock_reads s <= clock_reads s' <= clock_reads s + 2)%nat
              /\ (_cache s' = _cache s
                  \/ exists data,
                       fst (r, asked city (after_check s city)) = Return data
                       /\ (exists c, condition data = TextPath.glyph c)
                       /\ (0 < clock_reads s')%nat
                       /\ _cache s'
                          = <[city := (clock s (pred (clock_reads s')), data)]>
                              (_cache s))) as Hkeep.
    { intros r. simpl. rewrite H5. repeat split; try assumption; try lia.
      left. exact H7. }
    destruct (answer s city) as [|status_code body]; [apply Hkeep|].
    destruct (is_error status_code).
    { destruct ((status_code =? 429)%Z && u), (prior_entry s city); apply Hkeep. }
    destruct body as [raw|]; [|apply Hkeep].
    destruct (fst (convert raw s)) as [d|e] eqn:Hconv; [|apply Hkeep].
    simpl. rewrite H5. repeat split; try assumption; try lia.
    right. exists d. split; [reflexivity|]. split; [|split; [lia|reflexivity]].
    (* the condition comes out of the text path *)
    revert Hconv. unfold convert, bind.
    repeat match goal with
           | |- context [getitem ?o ?k s] =>
               destruct (pure_getitem o k) as [? ->]
           | |- context [py_round1 ?x ?t] =>
               destruct (pure_py_round1 x) as [? ->]
           | |- context [py_mul ?x ?k ?t] =>
               destruct (pure_py_mul x k) as [? ->]
           | |- context [py_lower ?x ?t] =>
               destruct (pure_py_lower x) as [? ->]
           | |- context [match ?r with Return _ => _ | Raise _ => _ end] =>
               destruct r; simpl; try discriminate
           end.
    intros [= <-]. simpl.
    rewrite ClassifierFacts.condition_of_first_match. eauto.
Qed.

(** X4. [WeatherService(api_key)] is built exactly when the key given or
    the key of the environment holds a character; a key given that holds
    one wins over the environment; the cache of a new service is empty, so
    its first call for any city asks the provider. *)
Theorem service_needs_a_key (api_key env_key : option str) :
  (__init__ api_key env_key = None
   <-> (api_key = None \/ api_key = Some [])
       /\ (env_key = None \/ env_key = Some []))
  /\ (forall key, key <> [] -> api_key = Some key ->
        __init__ api_key env_key = Some (key, ∅))
  /\ (forall key cache, __init__ api_key env_key = Some (key, cache) ->
        key <> [] /\ (api_key = Some key \/ env_key = Some key)
        /\ forall s city u,
             requests (snd (get_weather city u (set_cache cache s)))
             = requests s ++ [city]).
Proof.
  assert (forall s city u,
            requests (snd (get_weather city u (set_cache ∅ s)))
            = requests s ++ [city]) as Hfirst.
  { intros s city u.
    destruct (get_weather_effect city u (set_cache ∅ s))
      as (_ & _ & _ & _ & Hreq & _).
    unfold fresh_entry in Hreq. simpl in Hreq. rewrite lookup_empty in Hreq.
    exact Hreq. }
  unfold __init__.
  destruct api_key as [[|c k]|], env_key as [[|d e]|]; simpl;
    (split; [|split]);
    try (split; [discriminate | intros [[E|E] [E'|E']]; discriminate]);
    try (split; [tauto | reflexivity]);
    try (intros key Hne [= <-]; solve [reflexivity | contradiction]);
    try (intros key Hne E; discriminate);
    try (intros key cache E; discriminate);
    try (intros key cache [= <- <-]; split; [discriminate|];
         split; [tauto | exact Hfirst]).
Qed.

(** X5. A call sends one request to the provider, or none when it finds a
    fresh entry: it never asks twice. It reads the clock at most twice and
    leaves the rest of the world alone. *)
Theorem at_most_one_request_per_call city u s :
  let s' := snd (get_weather city u s) in
  (fresh_entry s city = true -> requests s' = requests s)
  /\ (fresh_entry s city = false -> requests s' = requests s ++ [city])
  /\ (clock_reads s <= clock_reads s' <= clock_reads s + 2)%nat
  /\ clock s' = clock s /\ server s' = server s.
Proof.
  cbv zeta.
  destruct (get_weather_effect city u s) as (Hc & Hs & _ & _ & Hreq & Hreads & _).
  repeat split; try assumption; try lia.
  - intros Hf. rewrite Hf in Hreq. exact Hreq.
  - intros Hf. rewrite Hf in Hreq. exact Hreq.
Qed.

(** X6. A call for a city leaves the cache entries of all other cities as
    they are, and never takes an entry out of the cache. *)
Theorem other_entries_untouched city u s :
  let s' := snd (get_weather city u s) in
  (forall other, other <> city -> _cache s' !! other = _cache s !! other)
  /\ (forall c, is_Some (_cache s !! c) -> is_Some (_cache s' !! c)).
Proof.
  cbv zeta.
  destruct (get_weather_effect city u s) as (_ & _ & _ & _ & _ & _ & Hcache).
  destruct Hcache as [->|(data & _ & _ & _ & ->)].
  - split; auto.
  - split.
    + intros other Hne. apply lookup_insert_ne. congruence.
    + intros c Hc. rewrite lookup_insert. case_decide; [eauto | exact Hc].
Qed.

(** X7. [use_cache_on_error] matters in one situation only, a 429 answer
    to a call that has a stale entry: there [False] makes the call raise;
    everywhere else the call does the same with [True] and with [False]. *)
Theorem use_cache_on_error_matters_on_429_only city s :
  (forall body data,
     fresh_entry s city = false -> answer s city = Response 429 body ->
     prior_entry s city = Some data ->
     fst (get_weather city false s) = Raise (HTTPError 429)
     /\ fst (get_weather city true s) = Return data)
  /\ (fresh_entry s city = true \/ prior_entry s city = None
      \/ (forall body, answer s city <> Response 429 body) ->
      get_weather city true s = get_weather city false s).
Proof.
  split.
  - intros body data Hf Ha Hp. rewrite !(get_weather_miss _ _ _ Hf). cbv zeta.
    rewrite Ha, Hp. split; reflexivity.
  - intros Hcase. destruct (fresh_entry s city) eqn:Hf.
    + unfold fresh_entry in Hf.
      destruct (_cache s !! city) as [[timestamp d]|] eqn:Hc; [|discriminate].
      rewrite !(get_weather_fresh _ _ _ _ _ Hc Hf). reflexivity.
    + rewrite !(get_weather_miss _ _ _ Hf). cbv zeta.
      destruct (answer s city) as [|status_code body] eqn:Ha; [reflexivity|].
      destruct (is_error status_code); [|reflexivity].
      destruct (Z.eqb_spec status_code 429) as [->|Hne]; [|reflexivity].
      destruct Hcase as [Hcase|[Hcase|Hcase]].
      * discriminate.
      * rewrite Hcase. reflexivity.
      * exfalso. apply (Hcase body). reflexivity.
Qed.

(** One call that meets a 429 with a stale entry. *)
Lemma rate_limited_call city s timestamp data body :
  _cache s !! city = Some (timestamp, data) ->
  (clock s (clock_reads s) - timestamp <? CACHE_DURATION)%float = false ->
  answer s city = Response 429 body ->
  get_weather city true s = (Return data, asked city (tick s)).
Proof.
  intros Hc Hage Ha.
  assert (fresh_entry s city = false) as Hf.
  { unfold fresh_entry. rewrite Hc. exact Hage. }
  rewrite (get_weather_miss _ _ _ Hf). cbv zeta.
  unfold prior_entry, after_check. rewrite Ha, Hc. reflexivity.
Qed.

(** X8. As long as the provider answers 429 and the entry of a city stays
    stale, every call for the city returns the same stale reading, sends
    one more request and leaves the entry with its old date: the fallback
    never makes the entry fresh. *)
Theorem rate_limiting_keeps_serving_stale city timestamp data k :
  forall s,
    _cache s !! city = Some (timestamp, data) ->
    (forall n, (clock_reads s <= n)%nat ->
               (clock s n - timestamp <? CACHE_DURATION)%float = false) ->
    (forall n, exists body, server s n city = Response 429 body) ->
    fst (calls (replicate k (city, true)) s) = replicate k (Return data)
    /\ requests (snd (calls (replicate k (city, true)) s))
       = requests s ++ replicate k city
    /\ _cache (snd (calls (replicate k (city, true)) s)) = _cache s.
Proof.
  induction k as [|k IH]; intros s Hc Hage Hlimit; simpl.
  - rewrite app_nil_r. repeat split.
  - destruct (Hlimit (length (requests s))) as [body Ha].
    rewrite (rate_limited_call city s timestamp data body Hc
               (Hage _ (le_n _)) Ha).
    specialize (IH (asked city (tick s))).
    destruct (calls (replicate k (city, true)) (asked city (tick s)))
      as [rs s''] eqn:Hcalls.
    simpl in *. destruct IH as (Hr & Hq & Hk).
    + exact Hc.
    + intros n Hn. apply Hage. lia.
    + exact Hlimit.
    + rewrite Hr, Hq, Hk, <- app_assoc. repeat split.
Qed.

Lemma calls_sound l :
  forall s,
    cache_sound s ->
    cache_sound (snd (calls l s))
    /\ Forall (fun r => forall data, r = Return data ->
                          exists c, condition data = TextPath.glyph c)
              (fst (calls l s)).
Proof.
  induction l as [|[city u] l IH]; intros s Hs; simpl.
  - split; [exact Hs | constructor].
  - assert (cache_sound (snd (get_weather city u s))) as Hs'.
    { destruct (get_weather_effect city u s)
        as (Hclock & _ & _ & _ & _ & Hreads & Hcache).
      intros c ts d Hc. rewrite Hclock.
      destruct Hcache as [E|(data & _ & Hknown & Hpos & E)]; rewrite E in Hc.
      - destruct (Hs c ts d Hc) as (Hk & n & Hn & Hts).
        split; [exact Hk|]. exists n. split; [lia | exact Hts].
      - rewrite lookup_insert in Hc. case_decide.
        + injection Hc as <- <-. split; [exact Hknown|].
          eexists. split; [|reflexivity]. lia.
        + destruct (Hs c ts d Hc) as (Hk & n & Hn & Hts).
          split; [exact Hk|]. exists n. split; [lia | exact Hts]. }
    assert (forall data, fst (get_weather city u s) = Return data ->
              exists c, condition data = TextPath.glyph c) as Hret.
    { intros data Hr.
      destruct (get_weather city u s) as [r s1] eqn:Hcall. simpl in Hr. subst r.
      destruct (get_weather_returns_entry _ _ _ _ _ Hcall) as (ts & Hentry & _).
      exact (proj1 (Hs' _ _ _ Hentry)). }
    destruct (get_weather city u s) as [r s1]. simpl in Hs', Hret.
    destruct (IH s1 Hs') as [Hfinal Hrs].
    destruct (calls l s1) as [rs s2]. simpl in *.
    split; [exact Hfinal|]. constructor; assumption.
Qed.

(** X9. Through any run of calls on a service that started with an empty
    cache, every cached reading and every reading returned has one of the
    eight condition strings, and every cache entry is dated with a reading
    of the clock taken before. *)
Theorem cache_stays_sound l s :
  _cache s = ∅ ->
  cache_sound (snd (calls l s))
  /\ Forall (fun r => forall data, r = Return data ->
                        exists c, condition data = TextPath.glyph c)
            (fst (calls l s)).
Proof.
  intros Hempty. apply calls_sound.
  intros city ts d Hc. rewrite Hempty, lookup_empty in Hc. discriminate.
Qed.

(** X10. The conversion returns a reading exactly for a body that is a
    dict whose [currentConditions] is a dict with a number under [temp],
    [humidity] and [windspeed] and a string under [conditions], where a
    number is a float, an int or [True] or [False] (the ints 1 and 0) and
    the one under [windspeed] is not an int too large for a float. The
    reading holds the temperature and the humidity rounded, an int as it
    is and a float by [round]; its wind is the float of the wind speed
    times 1.60934, rounded. A body without [currentConditions] raises the
    [KeyError] of that key, and a wind speed that is an int too large an
    [OverflowError]. So a body with the int [z] for the temperature, [True]
    for the humidity and the int 10 for the wind speed gives the reading
    of [z], 1 and the rounded float. *)
Theorem convert_returns_iff raw s data :
  (fst (convert raw s) = Return data
   <-> exists fields current temp hum windspeed text t h w v,
         raw = JObject fields
         /\ dict_get (lit "currentConditions") fields = Some (JObject current)
         /\ dict_get (lit "temp") current = Some temp
         /\ dict_get (lit "humidity") current = Some hum
         /\ dict_get (lit "windspeed") current = Some windspeed
         /\ dict_get (lit "conditions") current = Some (JString text)
         /\ number_value temp = Some t /\ number_value hum = Some h
         /\ number_value windspeed = Some w /\ as_float w = Some v
         /\ data = mkReading (round_num t) (round_num h)
                     (PyFloat (round1 (v * 1.60934)%float))
                     (TextPath.condition_of (lower text)))
  /\ (forall fields,
        raw = JObject fields ->
        dict_get (lit "currentConditions") fields = None ->
        fst (convert raw s) = Raise (KeyError (lit "currentConditions")))
  /\ (forall fields current temp hum z t h,
        raw = JObject fields ->
        dict_get (lit "currentConditions") fields = Some (JObject current) ->
        dict_get (lit "temp") current = Some temp ->
        dict_get (lit "humidity") current = Some hum ->
        dict_get (lit "windspeed") current = Some (JInt z) ->
        number_value temp = Some t -> number_value hum = Some h ->
        float_of_int z = None ->
        fst (convert raw s) = Raise OverflowError)
  /\ (forall fields current z text,
        raw = JObject fields ->
        dict_get (lit "currentConditions") fields = Some (JObject current) ->
        dict_get (lit "temp") current = Some (JInt z) ->
        dict_get (lit "humidity") current = Some (JBool true) ->
        dict_get (lit "windspeed") current = Some (JInt 10) ->
        dict_get (lit "conditions") current = Some (JString text) ->
        fst (convert raw s)
        = Return (mkReading (PyInt z) (PyInt 1)
                    (PyFloat (round1 (10 * 1.60934)%float))
                    (TextPath.condition_of (lower text)))).
Proof.
  split; [split|split; [|split]].
  - apply convert_returns.
  - intros (fields & current & temp & hum & windspeed & text & t & h & w & v
            & -> & Hcur & Htemp & Hhum & Hwind & Htext & Ht & Hh & Hw & Hv
            & ->).
    rewrite convert_run, Hcur, Htemp, Ht, Hhum, Hh, Hwind, Hw, Hv, Htext.
    reflexivity.
  - intros fields -> Hcur. rewrite convert_run, Hcur. reflexivity.
  - intros fields current temp hum z t h -> Hcur Htemp Hhum Hwind Ht Hh Hz.
    rewrite convert_run, Hcur, Htemp, Ht, Hhum, Hh, Hwind.
    cbn [number_value as_float]. rewrite Hz. reflexivity.
  - intros fields current z text -> Hcur Htemp Hhum Hwind Htext.
    rewrite convert_run, Hcur, Htemp, Hhum, Hwind, Htext. reflexivity.
Qed.

End Service.
End ServiceRunsFacts.

(** ** What a round shows, charts and publishes *)

Module AppRoundsFacts.
Import PyStr WeatherService WeatherApp ServiceFacts AppFacts MqttTopic AppRounds.

Section App.
Context `{Builtins}.

Lemma deque_append_aligned {A B} maxlen (x : A) (y : B) d e :
  (1 <= maxlen)%nat -> length d = length e ->
  length (deque_append maxlen x d) = length (deque_append maxlen y e)
  /\ (1 <= length (deque_append maxlen x d))%nat.
Proof.
  intros Hm Hlen. unfold deque_append. cbv zeta.
  rewrite !length_app, <- Hlen. simpl.
  destruct (Nat.ltb_spec maxlen (length d + 1)).
  - rewrite !length_drop, !length_app, <- Hlen. simpl. lia.
  - rewrite !length_app, <- Hlen. simpl. lia.
Qed.

(** What a round does to the chart: nothing, or one point more. *)
Lemma update_city_chart city s :
  (temp_history (round_for s city) = temp_history s
   /\ time_history (round_for s city) = time_history s)
  \/ (city = graphed_city s
      /\ exists data s1 x,
           _get_weather_data city s = (Return data, s1)
           /\ is_Some (city_data s !! city)
           /\ as_float (temperature data) = Some x
           /\ temp_history (round_for s city)
              = deque_append DEFAULT_HISTORY (display_temp x s1) (temp_history s)
           /\ time_history (round_for s city)
              = deque_append DEFAULT_HISTORY (clock s1 (clock_reads s1))
                  (time_history s)).
Proof.
  pose proof (update_city_effect city s) as He. cbv zeta in He.
  destruct He as (_ & _ & _ & He).
  destruct (_get_weather_data city s) as [[data|e] s1].
  - destruct (city_data s !! city) as [row|] eqn:Hrow.
    + destruct He as [_ Hchart].
      destruct (decide (city = graphed_city s)) as [Hg|Hg].
      * destruct (as_float (temperature data)) as [x|] eqn:Hx.
        -- destruct Hchart as (Ht & Hi & _). right. split; [exact Hg|].
           exists data, s1, x. repeat split; eauto.
        -- destruct Hchart as (_ & Ht & Hi & _). left. split; assumption.
      * destruct Hchart as (_ & Ht & Hi & _). left. split; assumption.
    + destruct He as (Hd & _ & _ & _ & Ht & Hi & _). left.
      unfold round_for. rewrite Hd. split; assumption.
  - destruct He as (Hd & _ & _ & _ & Ht & Hi & _). left.
    unfold round_for. rewrite Hd. split; assumption.
Qed.

(** What a round hands to MQTT: nothing, or the reading it shows. *)
Lemma update_city_published city s :
  published (round_for s city) = published s
  \/ (mqtt s = Some true
      /\ exists data s1 now,
           _get_weather_data city s = (Return data, s1)
           /\ city_data (round_for s city) = <[city := row_of data]> (city_data s)
           /\ published (round_for s city)
              = published s
                ++ [(topic_of city,
                     mkPayload now city (temperature data) (humidity data)
                       (wind data) (condition data))]).
Proof.
  pose proof (update_city_effect city s) as He. cbv zeta in He.
  destruct He as (_ & _ & _ & He).
  assert (forall data s1 now,
            _get_weather_data city s = (Return data, s1) ->
            city_data (round_for s city) = <[city := row_of data]> (city_data s) ->
            published (round_for s city) = published s ++ sent city data now s ->
            published (round_for s city) = published s
            \/ (mqtt s = Some true
                /\ exists data s1 now,
                     _get_weather_data city s = (Return data, s1)
                     /\ city_data (round_for s city)
                        = <[city := row_of data]> (city_data s)
                     /\ published (round_for s city)
                        = published s
                          ++ [(topic_of city,
                               mkPayload now city (temperature data)
                                 (humidity data) (wind data) (condition data))]))
    as Hsent.
  { intros data s1 now Hget Hrows Hpub. unfold sent in Hpub.
    destruct (decide (mqtt s = Some true)) as [Hm|Hm].
    - right. split; [exact Hm|]. exists data, s1, now. repeat split; assumption.
    - left. rewrite Hpub. apply app_nil_r. }
  destruct (_get_weather_data city s) as [[data|e] s1] eqn:Hget.
  - destruct (city_data s !! city) as [row|] eqn:Hrow.
    + destruct He as [Hrows Hchart].
      destruct (decide (city = graphed_city s)) as [Hg|Hg].
      * destruct (as_float (temperature data)) as [x|] eqn:Hx.
        -- destruct Hchart as (_ & _ & Hd).
           destruct (drawable (display_temp x s1)).
           ++ destruct Hd as (_ & now & Hpub).
              apply (Hsent data s1 now eq_refl Hrows Hpub).
           ++ left. apply Hd.
        -- left. apply Hchart.
      * destruct Hchart as (_ & _ & _ & now & Hpub).
        apply (Hsent data s1 now eq_refl Hrows Hpub).
    + destruct He as (Hd & _ & _ & _ & _ & _ & _ & Hp). left.
      unfold round_for. rewrite Hd. exact Hp.
  - destruct He as (Hd & _ & _ & _ & _ & _ & _ & Hp). left.
    unfold round_for. rewrite Hd. exact Hp.
Qed.

Lemma update_city_aligned city s :
  chart_aligned s -> chart_aligned (round_for s city).
Proof.
  intros [Hlen Hpos]. unfold chart_aligned.
  destruct (update_city_chart city s)
    as [[-> ->]|(_ & data & s1 & x & _ & _ & _ & -> & ->)].
  - split; assumption.
  - apply deque_append_aligned; [|exact Hlen]. unfold DEFAULT_HISTORY. lia.
Qed.

(** X11. Whether the first fetch succeeds or not, [__init__] leaves
    exactly one point in the chart; and from then on, through any number of
    ticks, the chart holds as many temperatures as times and is never
    empty. *)
Theorem chart_starts_with_one_point first others mqtt_client s n :
  length (temp_history (snd (init first others mqtt_client s))) = 1%nat
  /\ length (time_history (snd (init first others mqtt_client s))) = 1%nat
  /\ chart_aligned (run_ticks n (snd (init first others mqtt_client s))).
Proof.
  destruct (init_effect first others mqtt_client s)
    as (_ & _ & _ & _ & _ & Ht & Hi).
  split; [exact Ht|]. split; [exact Hi|].
  assert (chart_aligned (snd (init first others mqtt_client s))) as Hstart.
  { unfold chart_aligned. rewrite Ht, Hi. split; [reflexivity | lia]. }
  revert Hstart. generalize (snd (init first others mqtt_client s)).
  induction n as [|n IH]; intros t Ht'; simpl; [exact Ht'|].
  assert (chart_aligned (snd (update_loop t))) as Hnext.
  { unfold update_loop, bind, gets. cbv iota beta.
    apply (for_each_invariant chart_aligned); [|exact Ht'].
    intros city u. apply update_city_aligned. }
  destruct (update_loop t) as [[[]|e] t']; [apply IH|]; exact Hnext.
Qed.

(** X12. Only the rounds of the graphed city change the chart: the round
    of any other city leaves it as it is, and a round of the graphed city
    that shows a reading puts its point last, the temperature taken as a
    float; if the temperature is an int too large for that, the round
    raises and the chart stays as it is. *)
Theorem chart_follows_graphed_city city s :
  (city <> graphed_city s ->
   temp_history (round_for s city) = temp_history s
   /\ time_history (round_for s city) = time_history s)
  /\ (forall data s1 x,
        _get_weather_data city s = (Return data, s1) ->
        is_Some (city_data s !! city) -> city = graphed_city s ->
        as_float (temperature data) = Some x ->
        last (temp_history (round_for s city))
        = Some (display_temp x s1)
        /\ last (time_history (round_for s city))
           = Some (clock s1 (clock_reads s1)))
  /\ (forall data s1,
        _get_weather_data city s = (Return data, s1) ->
        is_Some (city_data s !! city) -> city = graphed_city s ->
        as_float (temperature data) = None ->
        fst (update_city city s) = Raise OverflowError
        /\ temp_history (round_for s city) = temp_history s
        /\ time_history (round_for s city) = time_history s).
Proof.
  split; [|split].
  - intros Hne.
    destruct (update_city_chart city s) as [Hsame|(Hg & _)];
      [exact Hsame | contradiction].
  - intros data s1 x Hget [row Hrow] Hg Hx.
    pose proof (update_city_effect city s) as He. cbv zeta in He.
    rewrite Hget, Hrow, Hx in He. destruct He as (_ & _ & _ & _ & Hchart).
    destruct (decide (city = graphed_city s)); [|contradiction].
    destruct Hchart as (-> & -> & _).
    split; apply deque_append_last; unfold DEFAULT_HISTORY; lia.
  - intros data s1 Hget [row Hrow] Hg Hx.
    pose proof (update_city_effect city s) as He. cbv zeta in He.
    rewrite Hget, Hrow, Hx in He. destruct He as (_ & _ & _ & _ & Hchart).
    destruct (decide (city = graphed_city s)); [|contradiction].
    destruct Hchart as (Hr & Ht & Hi & _). repeat split; assumption.
Qed.

(** X13. When the weather service raises a [RequestException] and the
    MQTT client is connected, the dummy data are charted when the city is
    the graphed one, and published as the city's reading, unless the chart
    of the graphed city refuses the point: then the round raises and
    publishes nothing. *)
Theorem dummy_data_published_and_charted city s e s1 :
  get_weather city true s = (Raise e, s1) ->
  is_RequestException e = true ->
  is_Some (city_data s !! city) ->
  mqtt s = Some true ->
  ((city = graphed_city s -> drawable (display_temp 20 s1) = true) ->
   exists now,
     published (round_for s city)
     = published s
       ++ [(topic_of city,
            mkPayload now city (PyFloat 20) (PyFloat 50) (PyFloat 0) [10067])])
  /\ (city = graphed_city s ->
      last (temp_history (round_for s city)) = Some (display_temp 20 s1))
  /\ (city = graphed_city s -> drawable (display_temp 20 s1) = false ->
      fst (update_city city s) = Raise ValueError
      /\ published (round_for s city) = published s).
Proof.
  intros Hcall He [row Hrow] Hm.
  pose proof (_get_weather_data_run city s) as Hrun.
  rewrite Hcall, He in Hrun.
  pose proof (update_city_effect city s) as Heff. cbv zeta in Heff.
  rewrite Hrun, Hrow in Heff. cbn [dummy_data temperature as_float] in Heff.
  destruct Heff as (_ & _ & _ & _ & Hchart).
  unfold sent in Hchart.
  destruct (decide (mqtt s = Some true)); [|contradiction].
  destruct (decide (city = graphed_city s)) as [Hg|Hg].
  - destruct Hchart as (Ht & _ & Hd). split; [|split].
    + intros Hdraw. rewrite (Hdraw Hg) in Hd. apply Hd.
    + intros _. rewrite Ht. apply deque_append_last. unfold DEFAULT_HISTORY. lia.
    + intros _ Hdraw. rewrite Hdraw in Hd. exact Hd.
  - destruct Hchart as (_ & _ & _ & Hpub). split; [|split].
    + intros _. exact Hpub.
    + intros Hg'. contradiction.
    + intros Hg'. contradiction.
Qed.

(** X14. A tick hands nothing to MQTT unless the client is there and
    connected. *)
Theorem nothing_published_unless_connected s :
  mqtt s <> Some true ->
  published (snd (update_loop s)) = published s.
Proof.
  intros Hm. unfold update_loop, bind, gets. cbv iota beta.
  apply (for_each_invariant
           (fun t => mqtt t = mqtt s /\ published t = published s)
           update_city (cities s)); [|split; reflexivity].
  intros city t [Hmt Hpt]. fold (round_for t city).
  destruct (update_city_effect city t) as (Hmqtt & _).
  rewrite Hmqtt. split; [exact Hmt|].
  destruct (update_city_published city t) as [->|(Hc & _)]; [exact Hpt|].
  congruence.
Qed.

Lemma for_each_published l :
  forall s,
    (length (published (snd (for_each l update_city s)))
     <= length (published s) + length l)%nat.
Proof.
  induction l as [|city l IH]; intros s; simpl; [lia|].
  unfold bind.
  assert (length (published (round_for s city)) <= length (published s) + 1)%nat
    as Hone.
  { destruct (update_city_published city s)
      as [->|(_ & data & s1 & now & _ & _ & ->)]; [lia|].
    rewrite length_app. simpl. lia. }
  unfold round_for in Hone.
  destruct (update_city city s) as [[[]|e] s']; simpl in *.
  - specialize (IH s'). lia.
  - lia.
Qed.

(** X15. What a round of the loop publishes for a city is what it shows:
    a round adds at most one message, on the topic of its city, and the
    reading in the message is the one written to the row of the city. A
    tick adds at most one message per configured city. *)
Theorem published_is_what_is_shown city s :
  (published (round_for s city) = published s
   \/ exists p,
        published (round_for s city) = published s ++ [(topic_of city, p)]
        /\ p_city p = city
        /\ city_data (round_for s city) !! city = Some (row_of (reading_of p)))
  /\ (length (published (snd (update_loop s)))
      <= length (published s) + length (cities s))%nat.
Proof.
  split.
  - destruct (update_city_published city s)
      as [Hpub|(_ & data & s1 & now & _ & Hrows & Hpub)];
      [left; exact Hpub|].
    right. eexists. split; [exact Hpub|]. split; [reflexivity|].
    rewrite Hrows, lookup_insert_eq. destruct data; reflexivity.
  - unfold update_loop, bind, gets. cbv iota beta. apply for_each_published.
Qed.

End App.
End AppRoundsFacts.

(** ** The names of the cities *)

Module CityNamesFacts.
Import PyStr PyStrFacts CityNames MqttTopicFacts.

Lemma split_not_nil sep s : split sep s <> [].
Proof.
  destruct s as [|c rest]; simpl; [discriminate|].
  destruct (c =? sep); [discriminate|].
  destruct (split sep rest); discriminate.
Qed.

Lemma split_pieces sep s : Forall (fun p => ~ In sep p) (split sep s).
Proof.
  induction s as [|c rest IH]; simpl; [repeat constructor; auto|].
  destruct (N.eqb_spec c sep) as [->|Hne].
  - constructor; [auto | exact IH].
  - destruct (split sep rest) as [|piece pieces]; [repeat constructor|].
    + intros [E|[]]. congruence.
    + inversion IH as [|? ? Hp Hps]; subst. constructor; [|exact Hps].
      intros [E|Hin]; [congruence | exact (Hp Hin)].
Qed.

Lemma split_one sep s : ~ In sep s -> split sep s = [s].
Proof.
  induction s as [|c rest IH]; intros Hs; simpl; [reflexivity|].
  destruct (N.eqb_spec c sep) as [->|Hne]; [exfalso; apply Hs; left; reflexivity|].
  rewrite IH; [reflexivity|]. intros Hin. apply Hs. right. exact Hin.
Qed.

Lemma split_app sep a b :
  ~ In sep a -> split sep (a ++ sep :: b) = a :: split sep b.
Proof.
  induction a as [|c a IH]; intros Ha; simpl.
  - rewrite N.eqb_refl. reflexivity.
  - destruct (N.eqb_spec c sep) as [->|Hne];
      [exfalso; apply Ha; left; reflexivity|].
    rewrite IH; [reflexivity|]. intros Hin. apply Ha. right. exact Hin.
Qed.

Lemma strip_In p s c : In c (strip p s) -> In c s.
Proof.
  intros Hin. destruct (strip_split p s) as (pre & suf & Hs & _).
  rewrite Hs. apply in_or_app. right. apply in_or_app. left. exact Hin.
Qed.

Lemma strip_blank_prefix w x :
  Forall (fun c => isspace c = true) w -> clean x ->
  strip isspace (w ++ x) = x.
Proof.
  intros Hw (Hne & _ & Hhead & Hlast). unfold strip.
  assert (lstrip isspace (w ++ x) = x) as ->.
  { unfold lstrip. induction Hw as [|c w Hc Hw IH]; simpl.
    - apply drop_while_id. exact Hhead.
    - rewrite Hc. exact IH. }
  unfold rstrip. rewrite drop_while_id; [apply reverse_involutive|].
  intros c Hc. apply Hlast. rewrite <- (reverse_involutive x), last_reverse.
  exact Hc.
Qed.

Lemma filter_sublist {A} (f : A -> bool) l : List.filter f l `sublist_of` l.
Proof.
  induction l as [|x l IH]; simpl; [constructor|].
  destruct (f x); [apply sublist_skip | apply sublist_cons]; exact IH.
Qed.

Lemma names_clean (text : str) : Forall clean (names_in text).
Proof.
  unfold names_in. apply Forall_forall. intros name Hin.
  apply list_elem_of_In, filter_In in Hin. destruct Hin as [Hin Hne].
  apply in_map_iff in Hin. destruct Hin as (piece & <- & Hpiece).
  pose proof (split_pieces 44 text) as Hp. rewrite Forall_forall in Hp.
  specialize (Hp piece (proj2 (list_elem_of_In _ _) Hpiece)).
  repeat split.
  - intros E. rewrite E in Hne. discriminate.
  - intros Hc. apply Hp. eapply strip_In, Hc.
  - apply strip_head.
  - apply strip_last.
Qed.

(** X16. Every name read from the text the user or the command line gives
    is not empty, holds no comma and has no white space at either end; and
    the names are read in the order of the text, each from its own piece
    between commas. *)
Theorem names_in_are_clean (text : str) :
  Forall clean (names_in text)
  /\ names_in text `sublist_of` map (strip isspace) (split 44 text)
  /\ Forall (fun piece => ~ In 44 piece) (split 44 text).
Proof.
  split; [apply names_clean|]. split; [|apply split_pieces].
  unfold names_in. apply filter_sublist.
Qed.

Lemma names_in_join w names :
  names <> [] -> Forall clean names ->
  Forall (fun c => isspace c = true) w ->
  names_in (w ++ join (lit ", ") names) = names.
Proof.
  intros Hne Hclean. revert w.
  induction Hclean as [|x rest Hx Hrest IH]; intros w Hw; [contradiction|].
  assert (~ In 44 (w ++ x)) as Hcomma.
  { intros Hin. apply in_app_or in Hin. destruct Hin as [Hin|Hin].
    - rewrite Forall_forall in Hw.
      specialize (Hw 44 (proj2 (list_elem_of_In _ _) Hin)). discriminate.
    - destruct Hx as (_ & Hx & _). exact (Hx Hin). }
  assert (nonempty x = true) as Hnx.
  { destruct Hx as (Hx & _). destruct x; [contradiction | reflexivity]. }
  destruct rest as [|y rest].
  - simpl. unfold names_in. rewrite (split_one 44 _ Hcomma). simpl.
    rewrite (strip_blank_prefix w x Hw Hx), Hnx. reflexivity.
  - change (join (lit ", ") (x :: y :: rest))
      with (x ++ 44 :: ([32] ++ join (lit ", ") (y :: rest))).
    rewrite app_assoc. unfold names_in. rewrite (split_app 44 _ _ Hcomma).
    simpl map. simpl List.filter.
    rewrite (strip_blank_prefix w x Hw Hx), Hnx. f_equal.
    apply (IH ltac:(discriminate) [32]). repeat constructor.
Qed.

(** X17. Names that are clean come back as they are from the text that
    joins them with a comma and a space: what the dialog offers, and what a
    user types in that form, is read as the list of cities meant. *)
Theorem names_in_join_round_trip (names : list str) :
  Forall clean names -> names_in (join (lit ", ") names) = names.
Proof.
  intros Hclean. destruct names as [|x rest]; [reflexivity|].
  apply (names_in_join [] (x :: rest)); [discriminate | exact Hclean | constructor].
Qed.

Lemma split_blank sep (Q : N -> Prop) s :
  Forall (fun p => Forall Q p) (split sep s)
  <-> Forall (fun c => c = sep \/ Q c) s.
Proof.
  induction s as [|c rest IH]; simpl.
  - split; intros _; repeat constructor.
  - destruct (N.eqb_spec c sep) as [->|Hne].
    + rewrite !Forall_cons, IH. intuition.
    + pose proof (split_not_nil sep rest) as Hnil.
      destruct (split sep rest) as [|piece pieces]; [contradiction|].
      rewrite !Forall_cons in *. rewrite <- IH. intuition.
Qed.

Lemma no_names pieces :
  List.filter nonempty (map (strip isspace) pieces) = []
  <-> Forall (fun p => Forall (fun c => isspace c = true) p) pieces.
Proof.
  induction pieces as [|p pieces IH]; simpl; [split; constructor|].
  rewrite Forall_cons, <- IH, <- strip_nil.
  destruct (strip isspace p); simpl; [tauto|].
  split; [discriminate | intros [? _]; discriminate].
Qed.

Lemma names_in_nil (text : str) :
  names_in text = []
  <-> Forall (fun c => c = 44 \/ isspace c = true) text.
Proof.
  unfold names_in. rewrite no_names. apply split_blank.
Qed.

(** X18. A text holds no name exactly when it is made of commas and
    white space only. [_get_city_names] asks again after an answer exactly
    when the answer is not empty and holds no name; the empty answer holds
    no name either, but it gives the demo city. *)
Theorem names_in_empty_iff (text : str) :
  (names_in text = []
   <-> Forall (fun c => c = 44 \/ isspace c = true) text)
  /\ ((forall later,
         _get_city_names (Some text :: later) = _get_city_names later)
      <-> text <> []
          /\ Forall (fun c => c = 44 \/ isspace c = true) text)
  /\ (text = [] ->
      names_in text = []
      /\ forall later,
           _get_city_names (Some text :: later) = Some [lit "Demo City"]).
Proof.
  split; [apply names_in_nil|]. split; [split|].
  - intros Hagain. specialize (Hagain []).
    destruct text as [|c text]; [discriminate Hagain|].
    split; [discriminate|]. apply names_in_nil.
    simpl in Hagain. destruct (names_in (c :: text)); [reflexivity|].
    discriminate Hagain.
  - intros [Hne Hall] later. destruct text as [|c text]; [contradiction|].
    apply names_in_nil in Hall. simpl. rewrite Hall. reflexivity.
  - intros ->. split; reflexivity.
Qed.

(** X19. [_get_city_names] never returns an empty list, so [__init__] has
    a first city to graph: it returns the demo city for a dialog that is
    cancelled or left empty, the names of the first answer that holds one
    otherwise, and asks again after an answer that holds none. *)
Theorem city_names_never_empty (answers : list (option str)) :
  (forall cities, _get_city_names answers = Some cities ->
     cities <> []
     /\ (cities = [lit "Demo City"] \/ Forall clean cities))
  /\ (forall text later,
        text <> [] -> names_in text = [] ->
        _get_city_names (Some text :: later) = _get_city_names later)
  /\ (forall text later,
        names_in text <> [] ->
        _get_city_names (Some text :: later) = Some (names_in text))
  /\ (forall later,
        _get_city_names (None :: later) = Some [lit "Demo City"]
        /\ _get_city_names (Some [] :: later) = Some [lit "Demo City"]).
Proof.
  split; [|split; [|split]].
  - induction answers as [|[[|c text]|] later IH]; simpl; intros cities Hc.
    + discriminate.
    + injection Hc as <-. split; [discriminate | left; reflexivity].
    + pose proof (names_clean (c :: text)) as Hclean.
      destruct (names_in (c :: text)) as [|n ns] eqn:Hn; [apply IH, Hc|].
      injection Hc as <-. split; [discriminate | right; exact Hclean].
    + injection Hc as <-. split; [discriminate | left; reflexivity].
  - intros [|c text] later Hne Hn; [contradiction|]. simpl. rewrite Hn.
    reflexivity.
  - intros [|c text] later Hn; [exfalso; apply Hn; reflexivity|].
    simpl. destruct (names_in (c :: text)); [contradiction | reflexivity].
  - intros later. split; reflexivity.
Qed.

End CityNamesFacts.

(** ** The ticks of the chart *)

Module ChartFacts.
Import Chart.
#[local] Open Scope nat_scope.

Lemma py_range_items stop step i :
  (1 <= step)%nat -> In i (py_range stop step) -> (i < stop)%nat.
Proof.
  intros Hstep Hin. unfold py_range in Hin.
  apply in_map_iff in Hin. destruct Hin as (k & <- & Hk).
  apply in_seq in Hk. simpl in Hk. destruct Hk as [_ Hk].
  pose proof (Nat.div_mod_eq (stop + step - 1) step) as Hdm.
  pose proof (Nat.mod_upper_bound (stop + step - 1) step ltac:(lia)) as Hmod.
  nia.
Qed.

Lemma xticks_length n : (length (xticks n) <= 11)%nat.
Proof.
  unfold xticks. destruct (1 <? n)%nat; [|simpl; lia].
  unfold py_range. rewrite length_map, length_seq.
  pose proof (Nat.div_mod_eq n 6) as Hn.
  pose proof (Nat.mod_upper_bound n 6 ltac:(lia)) as Hn6.
  set (d := (n / 6)%nat) in *.
  destruct (Nat.eq_dec d 0) as [Hd|Hd].
  - rewrite Hd. simpl Nat.max. rewrite Nat.div_1_r. lia.
  - assert (Nat.max 1 d = d) as -> by lia.
    apply Nat.lt_succ_r. apply Nat.Div0.div_lt_upper_bound. nia.
Qed.

(** X20. The tick labels of the chart are taken at places inside the
    history, so looking them up never fails; there are at most eleven of
    them, for a chart of any size; and for a history within its capacity
    the x axis ends at 60. *)
Theorem tick_labels_in_range {A} (times : list A) :
  Forall (fun i => i < length times)%nat (xticks (length times))
  /\ (exists labels, xticklabels times = Some labels
                     /\ length labels = length (xticks (length times)))
  /\ (length (xticks (length times)) <= 11)%nat
  /\ ((length times <= WeatherApp.DEFAULT_HISTORY)%nat ->
      xlim_right (length times) = 60%nat).
Proof.
  assert (Forall (fun i => i < length times)%nat (xticks (length times)))
    as Hin.
  { unfold xticks. destruct (1 <? length times)%nat; [|constructor].
    apply Forall_forall. intros i Hi. apply list_elem_of_In in Hi.
    apply (py_range_items _ (Nat.max 1 (length times / 6))); [lia | exact Hi]. }
  split; [exact Hin|]. split; [|split].
  - unfold xticklabels. revert Hin. generalize (xticks (length times)).
    intros l Hl. induction Hl as [|i l Hi Hl IH]; simpl.
    + exists []. split; reflexivity.
    + destruct IH as (labels & -> & Hlen).
      destruct (lookup_lt_is_Some_2 times i Hi) as [x ->]. simpl.
      exists (x :: labels). split; [reflexivity | simpl; congruence].
  - apply xticks_length.
  - intros Hb. unfold xlim_right, WeatherApp.DEFAULT_HISTORY in *. lia.
Qed.

End ChartFacts.

(** ** The headless simulator *)

Module HeadlessFacts.
Import PyStr MqttTopic Headless.

Lemma reported_app l1 l2 : reported (l1 ++ l2) = reported l1 ++ reported l2.
Proof.
  induction l1 as [|[city t h w c|] l1 IH]; simpl; [reflexivity| |exact IH].
  rewrite IH. reflexivity.
Qed.

Lemma sublist_same_length {A} (l1 l2 : list A) :
  l1 `sublist_of` l2 -> length l1 = length l2 -> l1 = l2.
Proof.
  induction 1 as [|x l1 l2 Hs IH|x l1 l2 Hs IH]; simpl; intros Hlen.
  - reflexivity.
  - f_equal. apply IH. lia.
  - apply sublist_length in Hs. lia.
Qed.

Section Simulator.
Context `{Builtins}.

(** What the simulation of one city leaves. *)
Lemma simulate_city_effect city s :
  let s' := simulate_city city s in
  sim_cities s' = sim_cities s /\ sim_mqtt s' = sim_mqtt s
  /\ sim_log_file s' = sim_log_file s /\ disk s' = disk s
  /\ reported (stdout s') = reported (stdout s) ++ [city]
  /\ sim_published s'
     = sim_published s
       ++ (if decide (sim_mqtt s = Some true)
           then [(topic_of city, payload_for city s)] else [])
  /\ log s'
     = log s
       ++ (if logging s && disk s (attempts s) then [payload_for city s]
           else [])
  /\ attempts s' = (if logging s then S (attempts s) else attempts s).
Proof.
  cbv zeta. unfold simulate_city, logging.
  assert (sim_published s
          ++ (if decide (sim_mqtt s = Some true)
              then [(topic_of city, payload_for city s)] else [])
          = match sim_mqtt s with
            | Some true => sim_published s ++ [(topic_of city, payload_for city s)]
            | _ => sim_published s
            end) as Hpub.
  { destruct (sim_mqtt s) as [[|]|]; case_decide; try congruence;
      rewrite ?app_nil_r; reflexivity. }
  rewrite Hpub.
  destruct (sim_log_file s) as [[|c path]|] eqn:Hlog;
    [| destruct (disk s (attempts s)) eqn:Hdisk |];
    cbn [sim_cities sim_mqtt sim_log_file disk stdout sim_published log attempts
         andb];
    rewrite ?Hlog, ?reported_app; cbn [reported app];
    rewrite ?app_nil_r; repeat split; reflexivity.
Qed.

Lemma payload_for_simulated city s :
  p_city (payload_for city s) = city /\ simulated (payload_for city s).
Proof.
  split; [reflexivity|]. unfold simulated, payload_for. cbv zeta.
  eexists _, _, _. repeat split.
Qed.

Lemma payloads_simulated l :
  forall s,
    map p_city (payloads l s) = l /\ Forall simulated (payloads l s).
Proof.
  induction l as [|city l IH]; intros s; simpl; [split; constructor|].
  destruct (IH (simulate_city city s)) as [Hc Hs].
  rewrite Hc. split; [reflexivity|].
  constructor; [apply payload_for_simulated | exact Hs].
Qed.

(** What a run of the loop over [l] leaves. *)
Lemma simulate_all l :
  forall s,
    let s' := foldl (fun s city => simulate_city city s) s l in
    sim_cities s' = sim_cities s /\ sim_mqtt s' = sim_mqtt s
    /\ sim_log_file s' = sim_log_file s /\ disk s' = disk s
    /\ reported (stdout s') = reported (stdout s) ++ l
    /\ sim_published s'
       = sim_published s
         ++ (if decide (sim_mqtt s = Some true)
             then map (fun p => (topic_of (p_city p), p)) (payloads l s)
             else [])
    /\ attempts s'
       = (if logging s then attempts s + length l else attempts s)%nat
    /\ exists kept,
         log s' = log s ++ kept
         /\ kept `sublist_of` payloads l s
         /\ length kept
            = (if logging s
               then length (List.filter (disk s) (seq (attempts s) (length l)))
               else 0)%nat.
Proof.
  induction l as [|city l IH]; intros s; cbv zeta.
  - simpl. rewrite !app_nil_r. repeat split.
    + destruct (decide _); rewrite ?app_nil_r; reflexivity.
    + destruct (logging s); lia.
    + exists []. rewrite app_nil_r. repeat split; [constructor|].
      destruct (logging s); reflexivity.
  - simpl foldl. specialize (IH (simulate_city city s)). cbv zeta in IH.
    destruct (simulate_city_effect city s)
      as (E1 & E2 & E3 & E4 & E5 & E6 & E7 & E8).
    destruct IH as (I1 & I2 & I3 & I4 & I5 & I6 & I7 & kept & I8 & I9 & I10).
    assert (logging (simulate_city city s) = logging s) as Hlogging
      by (unfold logging; rewrite E3; reflexivity).
    rewrite Hlogging, E2, E4, E8 in *.
    repeat split; try congruence.
    + rewrite I5, E5, <- app_assoc. reflexivity.
    + rewrite I6, E6, <- app_assoc. f_equal.
      destruct (decide (sim_mqtt s = Some true)); reflexivity.
    + rewrite I7. destruct (logging s); simpl; lia.
    + exists ((if logging s && disk s (attempts s)
               then [payload_for city s] else []) ++ kept).
      split; [rewrite I8, E7, <- app_assoc; reflexivity|].
      simpl payloads. simpl length. simpl seq. simpl List.filter.
      destruct (logging s); simpl andb.
      * destruct (disk s (attempts s)); simpl.
        -- split; [apply sublist_skip, I9 | rewrite I10; reflexivity].
        -- split; [apply sublist_cons, I9 | exact I10].
      * simpl. split; [apply sublist_cons, I9 | exact I10].
Qed.

(** X21. Every tick of the simulator reports every city on the standard
    output, in order, whatever happens to the log file; and when the MQTT
    client is connected it publishes one message per city, on the topic of
    the city, with a condition that is the numeric classifier's for the
    temperature and humidity in the message; when it is not, none. *)
Theorem simulator_reports_every_city s :
  reported (stdout (_simulate_data s)) = reported (stdout s) ++ sim_cities s
  /\ (exists ps,
        map p_city ps = sim_cities s /\ Forall simulated ps
        /\ sim_published (_simulate_data s)
           = sim_published s
             ++ (if decide (sim_mqtt s = Some true)
                 then map (fun p => (topic_of (p_city p), p)) ps else [])).
Proof.
  unfold _simulate_data.
  destruct (simulate_all (sim_cities s) s) as (_ & _ & _ & _ & Hr & Hp & _).
  split; [exact Hr|]. exists (payloads (sim_cities s) s).
  destruct (payloads_simulated (sim_cities s) s) as [Hc Hs].
  repeat split; assumption.
Qed.

(** X22. A tick of the simulator adds to the log file one line for each
    city whose write succeeds and nothing else: a write that fails loses
    its own line only, no log file means no line, and when every write
    succeeds the lines are the payloads of the cities, in order. *)
Theorem simulator_log_lines s :
  exists kept,
    log (_simulate_data s) = log s ++ kept
    /\ (logging s = false -> kept = [])
    /\ (logging s = true ->
        length kept
        = length (List.filter (disk s)
                    (seq (attempts s) (length (sim_cities s)))))
    /\ (logging s = true -> (forall n, disk s n = true) ->
        map p_city kept = sim_cities s).
Proof.
  unfold _simulate_data.
  destruct (simulate_all (sim_cities s) s)
    as (_ & _ & _ & _ & _ & _ & _ & kept & Hlog & Hsub & Hlen).
  exists kept. split; [exact Hlog|]. split; [|split].
  - intros Hl. rewrite Hl in Hlen. destruct kept; [reflexivity | discriminate].
  - intros Hl. rewrite Hl in Hlen. exact Hlen.
  - intros Hl Hdisk. rewrite Hl in Hlen.
    assert (List.filter (disk s) (seq (attempts s) (length (sim_cities s)))
            = seq (attempts s) (length (sim_cities s))) as Hall.
    { apply forallb_filter_id. apply forallb_forall. intros n _. apply Hdisk. }
    rewrite Hall, length_seq in Hlen.
    destruct (payloads_simulated (sim_cities s) s) as [Hc _].
    assert (length (payloads (sim_cities s) s) = length (sim_cities s)) as Hps
      by (rewrite <- Hc at 2; rewrite length_map; reflexivity).
    assert (kept = payloads (sim_cities s) s) as ->.
    { apply sublist_same_length; [exact Hsub | lia]. }
    exact Hc.
Qed.

End Simulator.
End HeadlessFacts.

(** ** The entry point *)

Module MainFacts.
Import PyStr CityNames CityNamesFacts Headless Main.

(** X23. The headless mode refuses to start exactly when [--cities] is
    missing or empty. It checks the text, not the names read from it: a
    text of commas and white space starts a simulator with no city, whose
    ticks do nothing at all. Every name a simulator is started with is
    clean. *)
Theorem headless_may_start_without_cities `{Builtins} (cities : option str) :
  (main true cities = Exit1 <-> cities = None \/ cities = Some [])
  /\ (main true cities = Simulator []
      <-> exists text, cities = Some text /\ text <> []
                       /\ Forall (fun c => c = 44 \/ isspace c = true) text)
  /\ (forall names, main true cities = Simulator names -> Forall clean names)
  /\ (forall s, sim_cities s = [] -> _simulate_data s = s)
  /\ main false cities = Gui.
Proof.
  split; [|split; [|split; [|split]]].
  - destruct cities as [[|c text]|]; simpl; split;
      try discriminate; try tauto; intros [E|E]; discriminate.
  - destruct cities as [[|c text]|]; simpl.
    + split; [discriminate|]. intros (text & [= <-] & Hne & _). contradiction.
    + split.
      * intros [= E]. exists (c :: text). split; [reflexivity|].
        split; [discriminate|]. apply names_in_nil, E.
      * intros (text' & [= <-] & _ & Hall).
        apply names_in_nil in Hall. rewrite <- Hall. reflexivity.
    + split; [discriminate|]. intros (text & E & _). discriminate.
  - intros names. destruct cities as [[|c text]|]; simpl; try discriminate.
    intros [= <-]. apply names_clean.
  - intros s Hs. unfold _simulate_data. rewrite Hs. reflexivity.
  - reflexivity.
Qed.

End MainFacts.

(** ** More runs in the example worlds *)

Module SceneCases.
Import PyStr Topic WeatherService WeatherApp Example Scenes.
Import MqttTopic ServiceRuns AppRounds CityNames.
Import MqttTopicFacts ServiceRunsFacts AppRoundsFacts CityNamesFacts.
#[local] Existing Instance runtime.

(** X3 at work: New York, in capitals or not. *)
Lemma new_york_case :
  sanitize_topic (lower (lit "New York")) = sanitize_topic (lit "New York")
  /\ sanitize_topic (lit "NEW YORK") = sanitize_topic (lit "New York").
Proof.
  destruct (sanitize_topic_ignores_case (lit "New York") (lit "NEW YORK"))
    as [Hlower Hother].
  - apply (bool_decide_unpack _). vm_compute. exact I.
  - split; [exact Hlower|]. apply Hother. vm_compute. reflexivity.
Defined.

(** X8 at work: three calls for London while the provider is over its
    limit. *)
Lemma rate_limited_case :
  fst (calls (replicate 3 (london, true)) frozen)
  = replicate 3 (Return rainy_reading)
  /\ requests (snd (calls (replicate 3 (london, true)) frozen))
     = requests frozen ++ replicate 3 london
  /\ _cache (snd (calls (replicate 3 (london, true)) frozen)) = _cache frozen.
Proof.
  apply (rate_limiting_keeps_serving_stale london 0%float rainy_reading 3 frozen).
  - vm_compute. reflexivity.
  - intros n _. reflexivity.
  - intros n. exists None. reflexivity.
Defined.

(** X9 at work: calls for London and Paris on a new service. *)
Lemma sound_cache_case :
  _cache (world provider) = ∅
  /\ cache_sound
       (snd (calls [(london, true); (paris, true); (london, false)]
               (world provider)))
  /\ Forall (fun r => forall data, r = Return data ->
                        exists c, condition data = TextPath.glyph c)
            (fst (calls [(london, true); (paris, true); (london, false)]
                    (world provider))).
Proof.
  split; [reflexivity|].
  apply (cache_stays_sound
           [(london, true); (paris, true); (london, false)] (world provider)).
  reflexivity.
Defined.

(** X13 at work: Paris cannot be reached and the client is connected;
    Paris is the graphed city, and the chart takes the point. *)
Lemma dummy_data_published_case :
  mqtt connected = Some true
  /\ paris = graphed_city connected
  /\ drawable (display_temp 20 (snd (get_weather paris true connected))) = true
  /\ (exists now,
        published (round_for connected paris)
        = published connected
          ++ [(topic_of paris,
               mkPayload now paris (PyFloat 20) (PyFloat 50) (PyFloat 0)
                 [10067])])
  /\ last (temp_history (round_for connected paris))
     = Some (display_temp 20 (snd (get_weather paris true connected))).
Proof.
  assert (mqtt connected = Some true) as Hm by (vm_compute; reflexivity).
  assert (paris = graphed_city connected) as Hg by reflexivity.
  assert (drawable (display_temp 20 (snd (get_weather paris true connected)))
          = true) as Hd by (vm_compute; reflexivity).
  split; [exact Hm|]. split; [exact Hg|]. split; [exact Hd|].
  destruct (dummy_data_published_and_charted paris connected ConnectionError
              (snd (get_weather paris true connected)))
    as (Hpub & Hlast & _).
  - vm_compute. reflexivity.
  - reflexivity.
  - vm_compute. eauto.
  - exact Hm.
  - split; [apply Hpub; intros _; exact Hd | apply Hlast, Hg].
Defined.

(** X14 at work: the application started without a client. *)
Lemma no_client_case :
  mqtt started = None
  /\ published (snd (update_loop started)) = published started.
Proof.
  assert (mqtt started = None) as Hm by (vm_compute; reflexivity).
  split; [exact Hm|].
  apply (nothing_published_unless_connected started).
  rewrite Hm. discriminate.
Defined.

(** X17 at work: the names the dialog offers. *)
Lemma offered_names_case :
  join (lit ", ") offered = lit "London, Paris, New York"
  /\ names_in (lit "London, Paris, New York") = offered.
Proof.
  assert (join (lit ", ") offered = lit "London, Paris, New York") as Hjoin
    by (vm_compute; reflexivity).
  split; [exact Hjoin|]. rewrite <- Hjoin.
  apply (names_in_join_round_trip offered).
  repeat (apply List.Forall_cons;
          [repeat split;
           [ discriminate
           | intros Hin; vm_compute in Hin;
             repeat (destruct Hin as [Hin|Hin]; [discriminate Hin|]); exact Hin
           | intros c Hc; vm_compute in Hc; injection Hc as <-; reflexivity
           | intros c Hc; vm_compute in Hc; injection Hc as <-; reflexivity ]|]).
  apply List.Forall_nil.
Defined.

End SceneCases.
